(** * aiconfigurator SDK v2: the operation registry and query protocol

    A shallow embedding of [aiconfigurator/sdk/v2]: the estimators
    ([estimator.py]), the operation base class and its composite
    ([operation_v2.py]), the concrete operation kinds ([operations/*.py]),
    the orchestrator ([database_v2.py]) and the helper classes of the unit
    tests ([tests/unit/sdk/v2]).

    Conventions of the embedding:
    - Python [float] is IEEE 754 binary64, here Rocq's primitive [float];
      Python [int] is [Z]; [//] on ints is [Z.div] (both round to minus
      infinity).
    - A raised exception is a value of [exn]; a method that can raise
      returns in [result] (pure methods) or in the monad [Py] (methods that
      read or write the orchestrator, or call [Estimator.predict]).
    - Keyword arguments ([**kwargs]) are an ordered association list from
      names to ints, the type every call site of the repository passes.
    - Each class is a module holding the record of its instance fields and
      its methods; a subclass record embeds the record of [OperationV2].
    - Calls of the [logging] module are not modelled. *)

From Stdlib Require Import ZArith Ascii String Floats.
From stdpp Require Import base option list strings gmap pretty sorting.

Local Open Scope Z_scope.

(** ** Exceptions and results *)

Inductive exn : Type :=
| ValueError (msg : string)
| NotImplementedError (msg : string)
| KeyError (key : string)
| TypeError (msg : string)
| ZeroDivisionError
| IndexError
| OverflowError
| RecursionError
| SciPyError (msg : string).

Definition result (A : Type) : Type := exn + A.

Definition ok {A : Type} (a : A) : result A := inr a.
Definition throw {A : Type} (e : exn) : result A := inl e.

Definition rbind {A B : Type} (m : result A) (k : A → result B) : result B :=
  match m with
  | inl e => inl e
  | inr a => k a
  end.

Fixpoint rmapM {A B : Type} (f : A → result B) (l : list A) : result (list B) :=
  match l with
  | [] => ok []
  | a :: l' => rbind (f a) (λ b, rbind (rmapM f l') (λ bs, ok (b :: bs)))
  end.

(** ** Keyword arguments *)

Definition kwargs : Type := list (string * Z).

Fixpoint kwargs_lookup (kw : kwargs) (name : string) : option Z :=
  match kw with
  | [] => None
  | (n, v) :: kw' => if decide (n = name) then Some v else kwargs_lookup kw' name
  end.

(** [kwargs[name]] *)
Definition getitem (kw : kwargs) (name : string) : result Z :=
  match kwargs_lookup kw name with
  | Some v => ok v
  | None => throw (KeyError name)
  end.

(** [kwargs.get(name, default)] *)
Definition get_default (kw : kwargs) (name : string) (default : Z) : Z :=
  match kwargs_lookup kw name with
  | Some v => v
  | None => default
  end.

(** [list(kwargs.values())] *)
Definition values (kw : kwargs) : list Z := kw.*2.

(** [a // b] on Python ints. *)
Definition floordiv (a b : Z) : result Z :=
  if decide (b = 0) then throw ZeroDivisionError else ok (a / b).

(** ** Lookup keys

    A lookup key is a Python tuple of ints, strings and bools. *)

Inductive pyval : Type :=
| VInt (z : Z)
| VStr (s : string)
| VBool (b : bool).

Definition lookup_key : Type := list pyval.

(** Python compares and hashes [True] as [1] and [False] as [0], so a
    dictionary keyed by tuples identifies them: keys are stored under this
    canonical form. *)
Definition hashable (v : pyval) : Z + string :=
  match v with
  | VInt z => inl z
  | VBool b => inl (Z.b2z b)
  | VStr s => inr s
  end.

(** A stored record: [{"latency": ..., "energy": ...}], the energy optional. *)
Record Entry : Type := { latency : float; energy : option float }.

(** [entry.get("energy", 0.0)] *)
Definition energy_or_zero (e : Entry) : float := default 0%float (energy e).

Definition ExactMatchIndex : Type := gmap (list (Z + string)) Entry.

(** [exact_match_dict[key]], [None] when [key not in exact_match_dict]. *)
Definition index_get (d : ExactMatchIndex) (key : lookup_key) : option Entry :=
  d !! (hashable <$> key).

(** A dictionary display [{key: entry, ...}]: later items overwrite. *)
Definition index_of (l : list (lookup_key * Entry)) : ExactMatchIndex :=
  foldl (λ (d : ExactMatchIndex) (item : lookup_key * Entry),
           <[hashable <$> item.1 := item.2]> d) ∅ l.

(** ** Formatting ([repr], as f-strings apply it to tuples and lists) *)

Module Repr.

Definition single_quote : Ascii.ascii := "039"%char.
Definition double_quote : Ascii.ascii := "034"%char.
Definition backslash : Ascii.ascii := "092"%char.

(** [c in s] for a character [c]. *)
Fixpoint has (c : Ascii.ascii) (s : string) : bool :=
  match s with
  | EmptyString => false
  | String c' s' => bool_decide (c' = c) || has c s'
  end.

(** [str.isprintable] of one character. A string is a sequence of code
    points below 256: the printable ones are the ASCII characters from the
    space to the tilde and those from 161, the soft hyphen (173) apart. *)
Definition printable (c : Ascii.ascii) : bool :=
  let n := N_of_ascii c in
  ((32 <=? n) && (n <? 127) || (161 <=? n) && negb (n =? 173))%N.

Definition hexdigit (n : N) : Ascii.ascii :=
  default "0"%char (String.get (N.to_nat n) "0123456789abcdef").

(** What [repr] writes for the character [c] between quotes [q]. *)
Definition escape (q c : Ascii.ascii) : string :=
  let n := N_of_ascii c in
  if bool_decide (c = q) || bool_decide (c = backslash) then String backslash (String c "")
  else if (n =? 9)%N then String backslash "t"
  else if (n =? 10)%N then String backslash "n"
  else if (n =? 13)%N then String backslash "r"
  else if printable c then String c ""
  else String backslash
         (String "x" (String (hexdigit (n / 16)) (String (hexdigit (n mod 16)) ""))).

Fixpoint escaped (q : Ascii.ascii) (s : string) : string :=
  match s with
  | EmptyString => ""
  | String c s' => escape q c +:+ escaped q s'
  end.

(** The quote [repr] picks: double when the string holds a single quote and
    no double quote, single otherwise. *)
Definition quote_of (s : string) : Ascii.ascii :=
  if has single_quote s && negb (has double_quote s) then double_quote
  else single_quote.

(** [repr(s)] of a string. *)
Definition str (s : string) : string :=
  let q := quote_of s in
  String q (escaped q s +:+ String q "").

(** A string [repr] shows as it is, between single quotes: printable
    characters only, no single quote and no backslash (every enum member
    name and operation name of the repository). *)
Fixpoint plain (s : string) : bool :=
  match s with
  | EmptyString => true
  | String c s' =>
      printable c && negb (bool_decide (c = single_quote))
      && negb (bool_decide (c = backslash)) && plain s'
  end.

Definition int (z : Z) : string := pretty z.

Definition bool (b : bool) : string := if b then "True" else "False".

Definition val (v : pyval) : string :=
  match v with
  | VInt z => int z
  | VStr s => str s
  | VBool b => bool b
  end.

Fixpoint join (sep : string) (l : list string) : string :=
  match l with
  | [] => ""
  | [s] => s
  | s :: l' => s +:+ sep +:+ join sep l'
  end.

Definition tuple (t : lookup_key) : string :=
  match t with
  | [v] => "(" +:+ val v +:+ ",)"
  | _ => "(" +:+ join ", " (val <$> t) +:+ ")"
  end.

Definition list_str (l : list string) : string :=
  "[" +:+ join ", " (str <$> l) +:+ "]".

End Repr.

(** [s] occurs in [msg]. *)
Definition mentions (msg s : string) : Prop :=
  ∃ pre post : string, msg = pre +:+ s +:+ post.

(** ** Numbers *)

(** [float(z)] for a Python int: the nearest binary64, ties to even;
    [OverflowError] when [z] is too large. *)
Definition float_of_int (z : Z) : result float :=
  let f := SF2Prim (binary_normalize prec emax z 0 false) in
  if PrimFloat.is_infinity f then throw OverflowError else ok f.

(** [z * f] for a Python int [z] and a float [f]. *)
Definition int_mul_float (z : Z) (f : float) : result float :=
  rbind (float_of_int z) (λ x, ok (x * f)%float).

(** ** PerformanceResult *)

(** Modelled from the spec: [aiconfigurator.sdk.performance_result] is not
    among the sources. A result carries a latency and an energy, reads as
    its latency under [float(...)], and adds pairwise. *)
Module PerformanceResult.

Record t : Type := new { latency : float; energy : float }.

Definition to_float (r : t) : float := latency r.

Definition add (a b : t) : t :=
  new (latency a + latency b)%float (energy a + energy b)%float.

End PerformanceResult.

(** Modelled from the spec: [aiconfigurator.sdk.common] is not among the
    sources. A quantisation mode is an enum member: its [name] and the
    width in bytes of one element ([value.memory]). *)
Record QuantMode : Type := { name : string; memory : Z }.

(** [common.CommQuantMode.half] *)
Definition CommQuantMode_half : QuantMode := {| name := "half"; memory := 2 |}.

(** [common.GEMMQuantMode.float16] *)
Definition GEMMQuantMode_float16 : QuantMode := {| name := "float16"; memory := 2 |}.

(** [common.DatabaseMode], as the docstring of [database_v2] lists it. *)
Inductive DatabaseMode : Type := SILICON | HYBRID | SOL.

(** ** The monad of methods

    A method runs against the state of the orchestrator it can reach (the
    type [S]; [DatabaseV2.t] below), returns or raises, and leaves a trace
    of the [Estimator.predict] calls it made. *)

Inductive event : Type :=
| EvPredict (args : kwargs).

Record outcome (S A : Type) : Type :=
  Outcome { value : result A; final : S; calls : list event }.
Arguments Outcome {S A} _ _ _.
Arguments value {S A} _.
Arguments final {S A} _.
Arguments calls {S A} _.

Definition Py (S A : Type) : Type := S → outcome S A.

Definition Py_ret {S A : Type} (a : A) : Py S A := λ s, Outcome (ok a) s [].

Definition Py_bind {S A B : Type} (m : Py S A) (k : A → Py S B) : Py S B :=
  λ s,
    let r := m s in
    match value r with
    | inl e => Outcome (inl e) (final r) (calls r)
    | inr a =>
        let r' := k a (final r) in
        Outcome (value r') (final r') (calls r ++ calls r')
    end.

Definition raise {S A : Type} (e : exn) : Py S A := λ s, Outcome (throw e) s [].

Definition lift {S A : Type} (r : result A) : Py S A := λ s, Outcome r s [].

Definition emit {S : Type} (ev : event) : Py S unit := λ s, Outcome (ok tt) s [ev].

Definition gets {S A : Type} (f : S → A) : Py S A := λ s, Outcome (ok (f s)) s [].

Definition modify {S : Type} (f : S → S) : Py S unit := λ s, Outcome (ok tt) (f s) [].

#[global] Instance result_ret : MRet result := @ok.
#[global] Instance result_bind : MBind result := λ A B k m, rbind m k.
#[global] Instance Py_mret {S : Type} : MRet (Py S) := @Py_ret S.
#[global] Instance Py_mbind {S : Type} : MBind (Py S) := λ A B k m, Py_bind m k.

(** ** Estimators ([estimator.py]) *)

(** A 2-D [numpy] array of floats, as its list of rows. *)
Definition matrix : Type := list (list float).

(** [a[:, :-2]] *)
Definition all_but_last_two (a : matrix) : matrix :=
  (λ row, take (length row - 2)%nat row) <$> a.

(** [a[:, -j]] for [j = 1, 2]: [IndexError] when the array is narrower. *)
Definition column_from_end (j : nat) (a : matrix) : result (list float) :=
  rmapM (λ row : list float,
           match reverse row !! pred j with
           | Some x => ok x
           | None => throw IndexError
           end) a.

(** The objects SciPy hands out, by what calling them returns at a query
    point (the values of the keyword arguments, in order): a float for an
    interpolant, the index of a sample for a k-d tree, or the message of the
    exception SciPy raised. *)
Definition interpolant : Type := list Z → string + float.
Definition kdtree : Type := list Z → string + nat.

(** The three SciPy constructors the estimators call; each may raise. *)
Record SciPy : Type := {
  LinearNDInterpolator : matrix → list float → string + interpolant;
  NearestNDInterpolator : matrix → list float → string + interpolant;
  cKDTree : matrix → string + kdtree
}.

(** A call into SciPy: its exceptions are kept apart from the ones raised
    by this code. *)
Definition scipy {A : Type} (r : string + A) : result A :=
  match r with
  | inl msg => throw (SciPyError msg)
  | inr a => ok a
  end.

(** Calling an attribute that may still be [None]. *)
Definition call {A B : Type} (f : option (A → string + B)) (x : A) : result B :=
  match f with
  | None => throw (TypeError "'NoneType' object is not callable")
  | Some g => scipy (g x)
  end.

Module LinearInterpolator.

Record t : Type := {
  _latency_interp : option interpolant;
  _energy_interp : option interpolant;
  _latency_nn : option interpolant;
  _energy_nn : option interpolant;
  _fitted : bool
}.

(** [__init__] *)
Definition init : t :=
  {| _latency_interp := None; _energy_interp := None;
     _latency_nn := None; _energy_nn := None; _fitted := false |}.

Definition not_fitted : exn := ValueError "LinearInterpolator has not been fitted yet.".

(** [fit]: the raised exception, if any, and the estimator afterwards. Each
    assignment takes effect before the next constructor is called. *)
Definition fit (sp : SciPy) (self : t) (flat_matrix : option matrix) : result unit * t :=
  match flat_matrix with
  | None | Some [] => (ok tt, self)
  | Some a =>
      let points := all_but_last_two a in
      match column_from_end 2 a with
      | inl e => (inl e, self)
      | inr latencies =>
      match column_from_end 1 a with
      | inl e => (inl e, self)
      | inr energies =>
      match scipy (LinearNDInterpolator sp points latencies) with
      | inl e => (inl e, self)
      | inr li =>
      let self1 :=
        {| _latency_interp := Some li; _energy_interp := _energy_interp self;
           _latency_nn := _latency_nn self; _energy_nn := _energy_nn self;
           _fitted := _fitted self |} in
      match scipy (LinearNDInterpolator sp points energies) with
      | inl e => (inl e, self1)
      | inr ei =>
      let self2 :=
        {| _latency_interp := Some li; _energy_interp := Some ei;
           _latency_nn := _latency_nn self; _energy_nn := _energy_nn self;
           _fitted := _fitted self |} in
      match scipy (NearestNDInterpolator sp points latencies) with
      | inl e => (inl e, self2)
      | inr ln =>
      let self3 :=
        {| _latency_interp := Some li; _energy_interp := Some ei;
           _latency_nn := Some ln; _energy_nn := _energy_nn self;
           _fitted := _fitted self |} in
      match scipy (NearestNDInterpolator sp points energies) with
      | inl e => (inl e, self3)
      | inr en =>
          (ok tt,
           {| _latency_interp := Some li; _energy_interp := Some ei;
              _latency_nn := Some ln; _energy_nn := Some en;
              _fitted := true |})
      end end end end end end
  end.

Definition predict (self : t) (kw : kwargs) : result (float * float) :=
  if negb (_fitted self) then throw not_fitted
  else
    let point := values kw in
    latency ← call (_latency_interp self) point;
    energy ← call (_energy_interp self) point;
    if PrimFloat.is_nan latency then
      latency ← call (_latency_nn self) point;
      energy ← call (_energy_nn self) point;
      ok (latency, energy)
    else ok (latency, energy).

End LinearInterpolator.

Module NearestNeighbor.

Record t : Type := {
  _tree : option kdtree;
  _latencies : option (list float);
  _energies : option (list float);
  _fitted : bool
}.

(** [__init__] *)
Definition init : t :=
  {| _tree := None; _latencies := None; _energies := None; _fitted := false |}.

Definition not_fitted : exn := ValueError "NearestNeighbor has not been fitted yet.".

Definition fit (sp : SciPy) (self : t) (flat_matrix : option matrix) : result unit * t :=
  match flat_matrix with
  | None | Some [] => (ok tt, self)
  | Some a =>
      let points := all_but_last_two a in
      match column_from_end 2 a with
      | inl e => (inl e, self)
      | inr latencies =>
      let self1 :=
        {| _tree := _tree self; _latencies := Some latencies;
           _energies := _energies self; _fitted := _fitted self |} in
      match column_from_end 1 a with
      | inl e => (inl e, self1)
      | inr energies =>
      let self2 :=
        {| _tree := _tree self; _latencies := Some latencies;
           _energies := Some energies; _fitted := _fitted self |} in
      match scipy (cKDTree sp points) with
      | inl e => (inl e, self2)
      | inr tree =>
          (ok tt,
           {| _tree := Some tree; _latencies := Some latencies;
              _energies := Some energies; _fitted := true |})
      end end end
  end.

(** [column[idx]] on an attribute that may still be [None]. *)
Definition item (column : option (list float)) (idx : nat) : result float :=
  match column with
  | None => throw (TypeError "'NoneType' object is not subscriptable")
  | Some c =>
      match c !! idx with
      | Some x => ok x
      | None => throw IndexError
      end
  end.

Definition predict (self : t) (kw : kwargs) : result (float * float) :=
  if negb (_fitted self) then throw not_fitted
  else
    let point := values kw in
    idx ← call (_tree self) point;
    latency ← item (_latencies self) idx;
    energy ← item (_energies self) idx;
    ok (latency, energy).

End NearestNeighbor.

(** The abstract class [Estimator]: its two implementations. *)
Inductive Estimator : Type :=
| Linear (e : LinearInterpolator.t)
| Nearest (e : NearestNeighbor.t).

Module EstimatorMethods.

Definition fit (sp : SciPy) (self : Estimator) (flat_matrix : option matrix)
  : result unit * Estimator :=
  match self with
  | Linear e => prod_map id Linear (LinearInterpolator.fit sp e flat_matrix)
  | Nearest e => prod_map id Nearest (NearestNeighbor.fit sp e flat_matrix)
  end.

Definition predict (self : Estimator) (kw : kwargs) : result (float * float) :=
  match self with
  | Linear e => LinearInterpolator.predict e kw
  | Nearest e => NearestNeighbor.predict e kw
  end.

Definition fitted (self : Estimator) : bool :=
  match self with
  | Linear e => LinearInterpolator._fitted e
  | Nearest e => NearestNeighbor._fitted e
  end.

Definition not_fitted (self : Estimator) : exn :=
  match self with
  | Linear _ => LinearInterpolator.not_fitted
  | Nearest _ => NearestNeighbor.not_fitted
  end.

End EstimatorMethods.

(** ** The operation base class ([operation_v2.py]) *)

Module OperationV2.

Record t : Type := {
  backend_context : string;
  estimator : option Estimator;
  scale_factor : float;
  exact_match_dict : ExactMatchIndex;
  flat_matrix : option matrix
}.

(** [__init__], given what the subclass's [load_data] returned: the
    estimator, when there is one, is fit on the sample table, when there is
    one. *)
Definition init (sp : SciPy) (backend_context : string)
    (estimator : option Estimator) (scale_factor : float)
    (loaded : ExactMatchIndex * option matrix) : result t :=
  let self est :=
    {| backend_context := backend_context; estimator := est;
       scale_factor := scale_factor; exact_match_dict := loaded.1;
       flat_matrix := loaded.2 |} in
  match estimator, loaded.2 with
  | Some est, Some a =>
      match EstimatorMethods.fit sp est (Some a) with
      | (inl e, _) => throw e
      | (inr _, est') => ok (self (Some est'))
      end
  | _, _ => ok (self estimator)
  end.

Definition lookup_miss (key : lookup_key) : exn :=
  ValueError ("No exact match for key " +:+ Repr.tuple key
              +:+ " and no Estimator configured.").

(** [PerformanceResult(latency=latency * self.scale_factor,
                       energy=energy * self.scale_factor)] *)
Definition scaled (self : t) (latency energy : float) : PerformanceResult.t :=
  PerformanceResult.new (latency * scale_factor self)%float
                        (energy * scale_factor self)%float.

(** [query], with the subclass's [get_lookup_key] bound to the instance. *)
Definition query {S : Type} (get_lookup_key : kwargs → result lookup_key)
    (self : t) (kw : kwargs) : Py S PerformanceResult.t :=
  key ← lift (get_lookup_key kw);
  match index_get (exact_match_dict self) key with
  | Some entry => mret (scaled self (latency entry) (energy_or_zero entry))
  | None =>
      match estimator self with
      | Some est =>
          _ ← emit (EvPredict kw);
          p ← lift (EstimatorMethods.predict est kw);
          mret (scaled self p.1 p.2)
      | None => raise (lookup_miss key)
      end
  end.

Definition get_weights (self : t) (kw : kwargs) : result float := ok 0%float.

End OperationV2.

(** ** The operation kinds ([operations/*.py]) *)

Module GemmV2.

Record t : Type := {
  base : OperationV2.t;
  _n : Z;
  _k : Z;
  _quant_mode : QuantMode;
  _scale_num_tokens : Z;
  _low_precision_input : bool
}.

(** [self._weights], assigned once by [__init__]. *)
Definition _weights (self : t) : Z := _n self * _k self * memory (_quant_mode self).

Definition load_data : ExactMatchIndex * option matrix := (∅, None).

Definition get_lookup_key (self : t) (kw : kwargs) : result lookup_key :=
  M ← getitem kw "M";
  m ← floordiv M (_scale_num_tokens self);
  ok [VStr (name (_quant_mode self)); VInt m; VInt (_n self); VInt (_k self)].

Definition lookup_miss (key : lookup_key) : exn :=
  ValueError ("No match for GEMM key " +:+ Repr.tuple key
              +:+ " and no Estimator configured.").

Definition query {S : Type} (self : t) (kw : kwargs) : Py S PerformanceResult.t :=
  key ← lift (get_lookup_key self kw);
  match index_get (OperationV2.exact_match_dict (base self)) key with
  | Some entry =>
      mret (OperationV2.scaled (base self) (latency entry) (energy_or_zero entry))
  | None =>
      match OperationV2.estimator (base self) with
      | Some est =>
          M ← lift (getitem kw "M");
          m ← lift (floordiv M (_scale_num_tokens self));
          let args := [("M", m); ("N", _n self); ("K", _k self)] in
          _ ← emit (EvPredict args);
          p ← lift (EstimatorMethods.predict est args);
          mret (OperationV2.scaled (base self) p.1 p.2)
      | None => raise (lookup_miss key)
      end
  end.

Definition get_weights (self : t) (kw : kwargs) : result float :=
  int_mul_float (_weights self) (OperationV2.scale_factor (base self)).

End GemmV2.

Module ContextAttentionV2.

Record t : Type := {
  base : OperationV2.t;
  _n : Z;
  _n_kv : Z;
  _kvcache_quant_mode : QuantMode;
  _fmha_quant_mode : QuantMode;
  _window_size : Z;
  _head_size : Z
}.

Definition load_data : ExactMatchIndex * option matrix := (∅, None).

Definition get_lookup_key (self : t) (kw : kwargs) : result lookup_key :=
  batch_size ← getitem kw "batch_size";
  s ← getitem kw "s";
  ok [VInt batch_size; VInt s; VInt (get_default kw "prefix" 0);
      VInt (_n self); VInt (_n_kv self);
      VStr (name (_kvcache_quant_mode self)); VStr (name (_fmha_quant_mode self));
      VInt (_window_size self); VInt (_head_size self)].

End ContextAttentionV2.

Module GenerationAttentionV2.

Record t : Type := {
  base : OperationV2.t;
  _n : Z;
  _n_kv : Z;
  _kv_cache_dtype : QuantMode;
  _window_size : Z;
  _head_size : Z
}.

Definition load_data : ExactMatchIndex * option matrix := (∅, None).

Definition get_lookup_key (self : t) (kw : kwargs) : result lookup_key :=
  batch_size ← getitem kw "batch_size";
  s ← getitem kw "s";
  ok [VInt batch_size; VInt s; VInt (_n self); VInt (_n_kv self);
      VStr (name (_kv_cache_dtype self));
      VInt (_window_size self); VInt (_head_size self)].

End GenerationAttentionV2.

Module ContextMLAV2.

Record t : Type := {
  base : OperationV2.t;
  _num_heads : Z;
  _kvcache_quant_mode : QuantMode;
  _fmha_quant_mode : QuantMode
}.

Definition load_data : ExactMatchIndex * option matrix := (∅, None).

Definition get_lookup_key (self : t) (kw : kwargs) : result lookup_key :=
  batch_size ← getitem kw "batch_size";
  s ← getitem kw "s";
  ok [VInt batch_size; VInt s; VInt (get_default kw "prefix" 0);
      VInt (_num_heads self);
      VStr (name (_kvcache_quant_mode self)); VStr (name (_fmha_quant_mode self))].

End ContextMLAV2.

Module GenerationMLAV2.

Record t : Type := {
  base : OperationV2.t;
  _num_heads : Z;
  _kv_cache_dtype : QuantMode
}.

Definition load_data : ExactMatchIndex * option matrix := (∅, None).

Definition get_lookup_key (self : t) (kw : kwargs) : result lookup_key :=
  batch_size ← getitem kw "batch_size";
  s ← getitem kw "s";
  ok [VInt batch_size; VInt s; VInt (_num_heads self);
      VStr (name (_kv_cache_dtype self))].

End GenerationMLAV2.

Module MLABmmV2.

Record t : Type := {
  base : OperationV2.t;
  _num_heads : Z;
  _quant_mode : QuantMode;
  _if_pre : bool
}.

Definition load_data : ExactMatchIndex * option matrix := (∅, None).

Definition get_lookup_key (self : t) (kw : kwargs) : result lookup_key :=
  batch_size ← getitem kw "batch_size";
  ok [VInt batch_size; VInt (_num_heads self);
      VStr (name (_quant_mode self)); VBool (_if_pre self)].

End MLABmmV2.

Module NcclV2.

Record t : Type := {
  base : OperationV2.t;
  _nccl_op : string;
  _num_elements_per_token : Z;
  _num_gpus : Z;
  _comm_quant_mode : QuantMode
}.

Definition load_data : ExactMatchIndex * option matrix := (∅, None).

Definition get_lookup_key (self : t) (kw : kwargs) : result lookup_key :=
  x ← getitem kw "x";
  let message_size := x * _num_elements_per_token self in
  ok [VStr (name (_comm_quant_mode self)); VStr (_nccl_op self);
      VInt (_num_gpus self); VInt message_size].

End NcclV2.

Module CustomAllReduceV2.

Record t : Type := {
  base : OperationV2.t;
  _h : Z;
  _tp_size : Z
}.

Definition load_data : ExactMatchIndex * option matrix := (∅, None).

Definition get_lookup_key (self : t) (kw : kwargs) : result lookup_key :=
  x ← getitem kw "x";
  let size := x * _h self in
  ok [VStr (name CommQuantMode_half); VInt (_tp_size self); VInt size].

Definition query {S : Type} (self : t) (kw : kwargs) : Py S PerformanceResult.t :=
  if decide (_tp_size self = 1) then mret (PerformanceResult.new 0 0)
  else OperationV2.query (get_lookup_key self) (base self) kw.

End CustomAllReduceV2.

Module P2PV2.

Record t : Type := {
  base : OperationV2.t;
  _h : Z;
  _pp_size : Z
}.

Definition load_data : ExactMatchIndex * option matrix := (∅, None).

Definition get_lookup_key (self : t) (kw : kwargs) : result lookup_key :=
  x ← getitem kw "x";
  let size := x * _h self in
  let p2p_bytes := size * 2 in
  ok [VInt p2p_bytes].

Definition query {S : Type} (self : t) (kw : kwargs) : Py S PerformanceResult.t :=
  if decide (_pp_size self = 1) then mret (PerformanceResult.new 0 0)
  else OperationV2.query (get_lookup_key self) (base self) kw.

End P2PV2.

Module MoEV2.

Record t : Type := {
  base : OperationV2.t;
  _hidden_size : Z;
  _inter_size : Z;
  _topk : Z;
  _num_experts : Z;
  _moe_tp_size : Z;
  _moe_ep_size : Z;
  _quant_mode : QuantMode;
  _workload_distribution : string;
  _attention_dp_size : Z;
  _is_context : bool;
  _is_gated : bool;
  _weights : Z
}.

Definition load_data : ExactMatchIndex * option matrix := (∅, None).

(** A [quant_mode] keyword argument, an int here, has no [name] attribute
    and is rendered by [str]. *)
Definition get_lookup_key (self : t) (kw : kwargs) : result lookup_key :=
  x ← getitem kw "x";
  let x := x * _attention_dp_size self in
  let quant_mode :=
    match kwargs_lookup kw "quant_mode" with
    | Some v => Repr.int v
    | None => name (_quant_mode self)
    end in
  ok [VInt x; VInt (_hidden_size self); VInt (_inter_size self);
      VInt (_topk self); VInt (_num_experts self);
      VInt (_moe_tp_size self); VInt (_moe_ep_size self);
      VStr quant_mode; VStr (_workload_distribution self);
      VBool (_is_context self)].

Definition get_weights (self : t) (kw : kwargs) : result float :=
  int_mul_float (_weights self) (OperationV2.scale_factor (base self)).

End MoEV2.

Module ElementWiseV2.

Record t : Type := {
  base : OperationV2.t;
  _dim_in : Z;
  _dim_out : Z;
  _scale_num_tokens : Z
}.

Definition load_data : ExactMatchIndex * option matrix := (∅, None).

Definition get_lookup_key (self : t) (kw : kwargs) : result lookup_key :=
  x ← getitem kw "x";
  x ← floordiv x (_scale_num_tokens self);
  let read_bytes := x * _dim_in self * 2 in
  let write_bytes := x * _dim_out self * 2 in
  ok [VInt (read_bytes + write_bytes)].

End ElementWiseV2.

Module EmbeddingV2.

Record t : Type := {
  base : OperationV2.t;
  _row_size : Z;
  _column_size : Z
}.

(** [self._weights], assigned once by [__init__]. *)
Definition _weights (self : t) : Z := _row_size self * _column_size self * 2.

Definition load_data : ExactMatchIndex * option matrix := (∅, None).

Definition get_lookup_key (self : t) (kw : kwargs) : result lookup_key :=
  x ← getitem kw "x";
  let d2d_bytes := x * _column_size self * 2 in
  ok [VInt d2d_bytes].

Definition get_weights (self : t) (kw : kwargs) : result float :=
  int_mul_float (_weights self) (OperationV2.scale_factor (base self)).

End EmbeddingV2.

(** ** Composite operations

    A composite keeps a reference to the orchestrator ([self._db]); the
    orchestrator is the state of the monad, and [self._db.query] is the
    argument [db_query] of a composite's [query]. *)

Module CompositeOperationV2.

Record t : Type := {
  base : OperationV2.t;
  sub_operations : list string
}.

(** [__init__]: no data is loaded; [backend] is [db_reference.backend]. *)
Definition init (backend : string) (sub_operations : list string)
    (scale_factor : float) : t :=
  {| base := {| OperationV2.backend_context := backend;
                OperationV2.estimator := None;
                OperationV2.scale_factor := scale_factor;
                OperationV2.exact_match_dict := ∅;
                OperationV2.flat_matrix := None |};
     sub_operations := sub_operations |}.

Definition load_data : ExactMatchIndex * option matrix := (∅, None).

Definition get_lookup_key (self : t) (kw : kwargs) : result lookup_key := ok [].

End CompositeOperationV2.

Module MoEDispatchV2.

Record t : Type := {
  base : CompositeOperationV2.t;
  _hidden_size : Z;
  _topk : Z;
  _num_experts : Z;
  _moe_tp_size : Z;
  _moe_ep_size : Z;
  _attention_dp_size : Z;
  _pre_dispatch : bool;
  _attention_tp_size : Z;
  num_gpus : Z
}.

(** The sub-operation names [__init__] passes to the composite. *)
Definition sub_operations : list string := ["nccl"; "custom_allreduce"].

Definition query {S : Type} (self : t) (kw : kwargs) : Py S PerformanceResult.t :=
  mret (PerformanceResult.new 0 0).

End MoEDispatchV2.

(** ** The helper classes of the unit tests *)

(** [_StubOperation] of [test_operation_v2.py]. *)
Module StubOperation.

Record t : Type := {
  base : OperationV2.t;
  _data : ExactMatchIndex
}.

Definition load_data (data : ExactMatchIndex) : ExactMatchIndex * option matrix :=
  (data, None).

(** [tuple(sorted(kwargs.values()))] *)
Definition get_lookup_key (self : t) (kw : kwargs) : result lookup_key :=
  ok (VInt <$> merge_sort Z.le (values kw)).

End StubOperation.

(** [_DummyOp] of [test_database_v2.py]. *)
Module DummyOp.

Record t : Type := {
  base : OperationV2.t;
  _lat : float;
  _eng : float
}.

Definition load_data (lat eng : float) : ExactMatchIndex * option matrix :=
  (index_of [([VInt 42], {| latency := lat; energy := Some eng |})], None).

Definition get_lookup_key (self : t) (kw : kwargs) : result lookup_key :=
  ok [VInt (get_default kw "x" 42)].

End DummyOp.

(** [_StubComposite] of [test_operation_v2.py]: the sum of its
    sub-operations' results. *)
Module StubComposite.

Record t : Type := { base : CompositeOperationV2.t }.

(** The [for sub in self.sub_operations] loop, from [total] on. *)
Fixpoint loop {S : Type} (db_query : string → kwargs → Py S PerformanceResult.t)
    (subs : list string) (kw : kwargs) (total : PerformanceResult.t)
  : Py S PerformanceResult.t :=
  match subs with
  | [] => mret total
  | sub :: subs' =>
      result ← db_query sub kw;
      loop db_query subs' kw (PerformanceResult.add total result)
  end.

Definition query {S : Type} (db_query : string → kwargs → Py S PerformanceResult.t)
    (self : t) (kw : kwargs) : Py S PerformanceResult.t :=
  let comp := base self in
  let scale_factor := OperationV2.scale_factor (CompositeOperationV2.base comp) in
  total ← loop db_query (CompositeOperationV2.sub_operations comp) kw
               (PerformanceResult.new 0 0);
  mret (PerformanceResult.new
          (PerformanceResult.to_float total * scale_factor)%float
          (PerformanceResult.energy total * scale_factor)%float).

End StubComposite.

(** ** Dynamic dispatch

    An operation object is an instance of one of the classes above; a
    method call on it runs the method of its class, inherited from
    [OperationV2] where the class does not override it. *)

Module Operation.

Inductive t : Type :=
| Gemm (o : GemmV2.t)
| ContextAttention (o : ContextAttentionV2.t)
| GenerationAttention (o : GenerationAttentionV2.t)
| ContextMLA (o : ContextMLAV2.t)
| GenerationMLA (o : GenerationMLAV2.t)
| MLABmm (o : MLABmmV2.t)
| Nccl (o : NcclV2.t)
| CustomAllReduce (o : CustomAllReduceV2.t)
| P2P (o : P2PV2.t)
| MoE (o : MoEV2.t)
| ElementWise (o : ElementWiseV2.t)
| Embedding (o : EmbeddingV2.t)
| MoEDispatch (o : MoEDispatchV2.t)
| TestStub (o : StubOperation.t)
| TestDummy (o : DummyOp.t)
| TestComposite (o : StubComposite.t).

(** The [OperationV2] fields of an operation. *)
Definition fields (op : t) : OperationV2.t :=
  match op with
  | Gemm o => GemmV2.base o
  | ContextAttention o => ContextAttentionV2.base o
  | GenerationAttention o => GenerationAttentionV2.base o
  | ContextMLA o => ContextMLAV2.base o
  | GenerationMLA o => GenerationMLAV2.base o
  | MLABmm o => MLABmmV2.base o
  | Nccl o => NcclV2.base o
  | CustomAllReduce o => CustomAllReduceV2.base o
  | P2P o => P2PV2.base o
  | MoE o => MoEV2.base o
  | ElementWise o => ElementWiseV2.base o
  | Embedding o => EmbeddingV2.base o
  | MoEDispatch o => CompositeOperationV2.base (MoEDispatchV2.base o)
  | TestStub o => StubOperation.base o
  | TestDummy o => DummyOp.base o
  | TestComposite o => CompositeOperationV2.base (StubComposite.base o)
  end.

(** [op.get_lookup_key(kwargs)] *)
Definition get_lookup_key (op : t) (kw : kwargs) : result lookup_key :=
  match op with
  | Gemm o => GemmV2.get_lookup_key o kw
  | ContextAttention o => ContextAttentionV2.get_lookup_key o kw
  | GenerationAttention o => GenerationAttentionV2.get_lookup_key o kw
  | ContextMLA o => ContextMLAV2.get_lookup_key o kw
  | GenerationMLA o => GenerationMLAV2.get_lookup_key o kw
  | MLABmm o => MLABmmV2.get_lookup_key o kw
  | Nccl o => NcclV2.get_lookup_key o kw
  | CustomAllReduce o => CustomAllReduceV2.get_lookup_key o kw
  | P2P o => P2PV2.get_lookup_key o kw
  | MoE o => MoEV2.get_lookup_key o kw
  | ElementWise o => ElementWiseV2.get_lookup_key o kw
  | Embedding o => EmbeddingV2.get_lookup_key o kw
  | MoEDispatch o => CompositeOperationV2.get_lookup_key (MoEDispatchV2.base o) kw
  | TestStub o => StubOperation.get_lookup_key o kw
  | TestDummy o => DummyOp.get_lookup_key o kw
  | TestComposite o => CompositeOperationV2.get_lookup_key (StubComposite.base o) kw
  end.

(** [op.query(kwargs)] *)
Definition query {S : Type} (db_query : string → kwargs → Py S PerformanceResult.t)
    (op : t) (kw : kwargs) : Py S PerformanceResult.t :=
  match op with
  | Gemm o => GemmV2.query o kw
  | CustomAllReduce o => CustomAllReduceV2.query o kw
  | P2P o => P2PV2.query o kw
  | MoEDispatch o => MoEDispatchV2.query o kw
  | TestComposite o => StubComposite.query db_query o kw
  | _ => OperationV2.query (get_lookup_key op) (fields op) kw
  end.

(** [op.get_weights(kwargs)] *)
Definition get_weights (op : t) (kw : kwargs) : result float :=
  match op with
  | Gemm o => GemmV2.get_weights o kw
  | MoE o => MoEV2.get_weights o kw
  | Embedding o => EmbeddingV2.get_weights o kw
  | _ => OperationV2.get_weights (fields op) kw
  end.

End Operation.

(** ** The orchestrator ([database_v2.py]) *)

(** A Python [dict] with string keys: its items in insertion order. *)
Module Dict.

Section dict.
Context {V : Type}.

Definition t : Type := list (string * V).

Fixpoint get (d : t) (key : string) : option V :=
  match d with
  | [] => None
  | (k, v) :: d' => if decide (k = key) then Some v else get d' key
  end.

(** [key in d] *)
Definition contains (d : t) (key : string) : bool := bool_decide (is_Some (get d key)).

(** [d[key] = v]: a present key keeps its place. *)
Fixpoint set (d : t) (key : string) (v : V) : t :=
  match d with
  | [] => [(key, v)]
  | (k, v') :: d' => if decide (k = key) then (k, v) :: d' else (k, v') :: set d' key v
  end.

Fixpoint remove (d : t) (key : string) : t :=
  match d with
  | [] => []
  | (k, v) :: d' => if decide (k = key) then d' else (k, v) :: remove d' key
  end.

(** [list(d)] *)
Definition keys (d : t) : list string := d.*1.

End dict.
Arguments t : clear implicits.

End Dict.

Module DatabaseV2.

Record t : Type := {
  backend : string;
  mode : DatabaseMode;
  system_spec : Dict.t string;
  _operations : Dict.t Operation.t
}.

(** [__init__]; [mode] defaults to [SILICON], and a missing or empty
    [system_spec] becomes the empty dict. *)
Definition init (backend : string) (mode : DatabaseMode)
    (system_spec : option (Dict.t string)) : t :=
  {| backend := backend; mode := mode;
     system_spec := default [] system_spec; _operations := [] |}.

(** An assignment to, or an in-place update of, [self._operations]. *)
Definition update_operations (f : Dict.t Operation.t → Dict.t Operation.t)
    (self : t) : t :=
  {| backend := backend self; mode := mode self;
     system_spec := system_spec self; _operations := f (_operations self) |}.

Definition register_operation (name : string) (op : Operation.t) : Py t unit :=
  modify (update_operations (λ d, Dict.set d name op)).

Definition unregister_operation (name : string) : Py t (option Operation.t) :=
  op ← gets (λ self, Dict.get (_operations self) name);
  _ ← modify (update_operations (λ d, Dict.remove d name));
  mret op.

Definition has_operation (name : string) : Py t bool :=
  gets (λ self, Dict.contains (_operations self) name).

Definition get_operation (name : string) : Py t (option Operation.t) :=
  gets (λ self, Dict.get (_operations self) name).

Definition registered_operations : Py t (list string) :=
  gets (λ self, Dict.keys (_operations self)).

Definition unregistered (op_name : string) (available : list string) : exn :=
  NotImplementedError ("Operation '" +:+ op_name +:+ "' is not registered. "
                       +:+ "Available: " +:+ Repr.list_str available).

(** [query]. [depth] is the number of nested [DatabaseV2.query] frames the
    interpreter still allows: a composite re-enters the orchestrator, and
    Python raises [RecursionError] when the stack is exhausted. *)
Fixpoint query (depth : nat) (op_name : string) (kw : kwargs)
  : Py t PerformanceResult.t :=
  match depth with
  | O => raise RecursionError
  | S depth' =>
      op ← get_operation op_name;
      match op with
      | None =>
          available ← registered_operations;
          raise (unregistered op_name available)
      | Some op => Operation.query (query depth') op kw
      end
  end.

Fixpoint register_operations (ops : Dict.t Operation.t) : Py t unit :=
  match ops with
  | [] => mret tt
  | (name, op) :: ops' =>
      _ ← register_operation name op;
      register_operations ops'
  end.

Definition clear : Py t unit := modify (update_operations (λ _, [])).

End DatabaseV2.

(** Running a method of the orchestrator. *)
Definition run {A : Type} (m : Py DatabaseV2.t A) (db : DatabaseV2.t)
  : outcome DatabaseV2.t A := m db.

(** ** Notions the properties below are stated with *)

(** A method that leaves the orchestrator as it found it. *)
Definition read_only {S A : Type} (m : Py S A) : Prop := ∀ s, final (m s) = s.

(** The kinds whose [query] returns before any lookup for this
    configuration. *)
Definition short_circuits (op : Operation.t) : bool :=
  match op with
  | Operation.CustomAllReduce o => bool_decide (CustomAllReduceV2._tp_size o = 1)
  | Operation.P2P o => bool_decide (P2PV2._pp_size o = 1)
  | _ => false
  end.

(** The subclasses of [CompositeOperationV2]. *)
Definition is_composite (op : Operation.t) : bool :=
  match op with
  | Operation.MoEDispatch _ | Operation.TestComposite _ => true
  | _ => false
  end.

(** The classes that override [get_weights]. *)
Definition owns_weights (op : Operation.t) : bool :=
  match op with
  | Operation.Gemm _ | Operation.MoE _ | Operation.Embedding _ => true
  | _ => false
  end.

(** Composite aggregation as the specification words it: one sub-query per
    sub-operation name, the pairwise sum of the results, scaled. *)
Fixpoint sub_queries {S : Type} (db_query : string → kwargs → Py S PerformanceResult.t)
    (subs : list string) (kw : kwargs) : Py S (list PerformanceResult.t) :=
  match subs with
  | [] => mret []
  | sub :: subs' =>
      r ← db_query sub kw;
      rs ← sub_queries db_query subs' kw;
      mret (r :: rs)
  end.

Definition pairwise_sum (rs : list PerformanceResult.t) : PerformanceResult.t :=
  foldl PerformanceResult.add (PerformanceResult.new 0 0) rs.

Definition scale_result (f : float) (r : PerformanceResult.t) : PerformanceResult.t :=
  PerformanceResult.new (PerformanceResult.latency r * f)%float
                        (PerformanceResult.energy r * f)%float.

Definition spec_composite_query {S : Type}
    (db_query : string → kwargs → Py S PerformanceResult.t)
    (subs : list string) (scale_factor : float) (kw : kwargs)
  : Py S PerformanceResult.t :=
  rs ← sub_queries db_query subs kw;
  mret (scale_result scale_factor (pairwise_sum rs)).

(** The estimator after [fit] was called on each table in turn, whatever
    each call returned or raised. *)
Fixpoint fit_each (sp : SciPy) (est : Estimator) (tables : list (option matrix))
  : Estimator :=
  match tables with
  | [] => est
  | t :: tables' => fit_each sp (EstimatorMethods.fit sp est t).2 tables'
  end.

(** A successful [fit]: the call returned, on a table with at least one row. *)
Definition fit_succeeded (sp : SciPy) (est : Estimator) (t : option matrix) : bool :=
  match t, (EstimatorMethods.fit sp est t).1 with
  | Some (_ :: _), inr _ => true
  | _, _ => false
  end.

Fixpoint none_succeeded (sp : SciPy) (est : Estimator) (tables : list (option matrix))
  : bool :=
  match tables with
  | [] => true
  | t :: tables' =>
      negb (fit_succeeded sp est t)
      && none_succeeded sp (EstimatorMethods.fit sp est t).2 tables'
  end.

(** The name of the estimator's class. *)
Definition class_name (est : Estimator) : string :=
  match est with
  | Linear _ => "LinearInterpolator"
  | Nearest _ => "NearestNeighbor"
  end.

(** The registrations [regs], in order. *)
Definition register_all (regs : list (string * Operation.t)) : Py DatabaseV2.t unit :=
  DatabaseV2.register_operations regs.

(** ** Fixtures: the objects the unit tests build *)

Module Fixture.

Definition fields (scale_factor : float) (d : ExactMatchIndex)
    (e : option Estimator) : OperationV2.t :=
  {| OperationV2.backend_context := "test"; OperationV2.estimator := e;
     OperationV2.scale_factor := scale_factor;
     OperationV2.exact_match_dict := d; OperationV2.flat_matrix := None |}.

Definition entry (lat eng : float) : Entry := {| latency := lat; energy := Some eng |}.

(** [_StubOperation(data={(1, 2): {"latency": lat, "energy": eng}})] *)
Definition stub (lat eng : float) : Operation.t :=
  let d := index_of [([VInt 1; VInt 2], entry lat eng)] in
  Operation.TestStub {| StubOperation.base := fields 1 d None; StubOperation._data := d |}.

(** [_StubComposite(db_reference=db, sub_operations=subs, scale_factor=f)] *)
Definition composite (subs : list string) (f : float) : Operation.t :=
  Operation.TestComposite {| StubComposite.base := CompositeOperationV2.init "test" subs f |}.

(** [MoEDispatchV2(db, ..., scale_factor=f)] *)
Definition dispatch (f : float) : Operation.t :=
  Operation.MoEDispatch
    {| MoEDispatchV2.base :=
         CompositeOperationV2.init "test" MoEDispatchV2.sub_operations f;
       MoEDispatchV2._hidden_size := 4096; MoEDispatchV2._topk := 2;
       MoEDispatchV2._num_experts := 8; MoEDispatchV2._moe_tp_size := 1;
       MoEDispatchV2._moe_ep_size := 2; MoEDispatchV2._attention_dp_size := 1;
       MoEDispatchV2._pre_dispatch := true;
       MoEDispatchV2._attention_tp_size := 2; MoEDispatchV2.num_gpus := 2 |}.

(** [GemmV2(backend_context, n, k, quant_mode=q, estimator=e, scale_factor=f)]
    with [exact_match_dict] then set to [d], as the tests set it. *)
Definition gemm (n k : Z) (q : QuantMode) (f : float) (d : ExactMatchIndex)
    (e : option Estimator) : GemmV2.t :=
  {| GemmV2.base := fields f d e; GemmV2._n := n; GemmV2._k := k;
     GemmV2._quant_mode := q; GemmV2._scale_num_tokens := 1;
     GemmV2._low_precision_input := false |}.

Definition custom_allreduce (h tp_size : Z) (d : ExactMatchIndex) : Operation.t :=
  Operation.CustomAllReduce
    {| CustomAllReduceV2.base := fields 1 d None;
       CustomAllReduceV2._h := h; CustomAllReduceV2._tp_size := tp_size |}.

Definition p2p (h pp_size : Z) : Operation.t :=
  Operation.P2P {| P2PV2.base := fields 1 ∅ None; P2PV2._h := h; P2PV2._pp_size := pp_size |}.

Definition embedding (row_size column_size : Z) : Operation.t :=
  Operation.Embedding
    {| EmbeddingV2.base := fields 1 ∅ None;
       EmbeddingV2._row_size := row_size; EmbeddingV2._column_size := column_size |}.

(** [DatabaseV2(backend="test")] after [register_operation] of each item. *)
Definition database (regs : list (string * Operation.t)) : DatabaseV2.t :=
  final (run (register_all regs) (DatabaseV2.init "test" SILICON None)).

(** A fitted nearest-neighbour estimator over one sample. *)
Definition nearest (lat eng : float) : Estimator :=
  Nearest {| NearestNeighbor._tree := Some (λ _, inr 0%nat);
             NearestNeighbor._latencies := Some [lat];
             NearestNeighbor._energies := Some [eng];
             NearestNeighbor._fitted := true |}.

(** A stand-in for SciPy whose objects answer every query with the first
    sample. *)
Definition scipy : SciPy :=
  {| LinearNDInterpolator := λ _ vs, inr (λ _, inr (default 0%float (head vs)));
     NearestNDInterpolator := λ _ vs, inr (λ _, inr (default 0%float (head vs)));
     cKDTree := λ _, inr (λ _, inr 0%nat) |}.

End Fixture.

(** ** Constructors

    [__init__] of each class: the arguments become the fields, and
    [OperationV2.__init__] loads the data and fits the estimator. What
    [__init__] computes from its arguments before that call is computed
    here first, so that it raises first. *)

Definition GemmV2_init (sp : SciPy) (backend_context : string) (n k : Z)
    (quant_mode : QuantMode) (estimator : option Estimator) (scale_factor : float)
    (scale_num_tokens : Z) (low_precision_input : bool) : result GemmV2.t :=
  base ← OperationV2.init sp backend_context estimator scale_factor GemmV2.load_data;
  ok {| GemmV2.base := base; GemmV2._n := n; GemmV2._k := k;
        GemmV2._quant_mode := quant_mode;
        GemmV2._scale_num_tokens := scale_num_tokens;
        GemmV2._low_precision_input := low_precision_input |}.

Definition ContextAttentionV2_init (sp : SciPy) (backend_context : string) (n n_kv : Z)
    (kvcache_quant_mode fmha_quant_mode : QuantMode) (estimator : option Estimator)
    (scale_factor : float) (window_size head_size : Z) : result ContextAttentionV2.t :=
  base ← OperationV2.init sp backend_context estimator scale_factor
           ContextAttentionV2.load_data;
  ok {| ContextAttentionV2.base := base; ContextAttentionV2._n := n;
        ContextAttentionV2._n_kv := n_kv;
        ContextAttentionV2._kvcache_quant_mode := kvcache_quant_mode;
        ContextAttentionV2._fmha_quant_mode := fmha_quant_mode;
        ContextAttentionV2._window_size := window_size;
        ContextAttentionV2._head_size := head_size |}.

Definition GenerationAttentionV2_init (sp : SciPy) (backend_context : string)
    (n n_kv : Z) (kv_cache_dtype : QuantMode) (estimator : option Estimator)
    (scale_factor : float) (window_size head_size : Z)
  : result GenerationAttentionV2.t :=
  base ← OperationV2.init sp backend_context estimator scale_factor
           GenerationAttentionV2.load_data;
  ok {| GenerationAttentionV2.base := base; GenerationAttentionV2._n := n;
        GenerationAttentionV2._n_kv := n_kv;
        GenerationAttentionV2._kv_cache_dtype := kv_cache_dtype;
        GenerationAttentionV2._window_size := window_size;
        GenerationAttentionV2._head_size := head_size |}.

Definition ContextMLAV2_init (sp : SciPy) (backend_context : string) (num_heads : Z)
    (kvcache_quant_mode fmha_quant_mode : QuantMode) (estimator : option Estimator)
    (scale_factor : float) : result ContextMLAV2.t :=
  base ← OperationV2.init sp backend_context estimator scale_factor ContextMLAV2.load_data;
  ok {| ContextMLAV2.base := base; ContextMLAV2._num_heads := num_heads;
        ContextMLAV2._kvcache_quant_mode := kvcache_quant_mode;
        ContextMLAV2._fmha_quant_mode := fmha_quant_mode |}.

Definition GenerationMLAV2_init (sp : SciPy) (backend_context : string) (num_heads : Z)
    (kv_cache_dtype : QuantMode) (estimator : option Estimator) (scale_factor : float)
  : result GenerationMLAV2.t :=
  base ← OperationV2.init sp backend_context estimator scale_factor
           GenerationMLAV2.load_data;
  ok {| GenerationMLAV2.base := base; GenerationMLAV2._num_heads := num_heads;
        GenerationMLAV2._kv_cache_dtype := kv_cache_dtype |}.

Definition MLABmmV2_init (sp : SciPy) (backend_context : string) (num_heads : Z)
    (quant_mode : QuantMode) (if_pre : bool) (estimator : option Estimator)
    (scale_factor : float) : result MLABmmV2.t :=
  base ← OperationV2.init sp backend_context estimator scale_factor MLABmmV2.load_data;
  ok {| MLABmmV2.base := base; MLABmmV2._num_heads := num_heads;
        MLABmmV2._quant_mode := quant_mode; MLABmmV2._if_pre := if_pre |}.

Definition NcclV2_init (sp : SciPy) (backend_context : string) (nccl_op : string)
    (num_elements_per_token num_gpus : Z) (comm_quant_mode : QuantMode)
    (estimator : option Estimator) (scale_factor : float) : result NcclV2.t :=
  base ← OperationV2.init sp backend_context estimator scale_factor NcclV2.load_data;
  ok {| NcclV2.base := base; NcclV2._nccl_op := nccl_op;
        NcclV2._num_elements_per_token := num_elements_per_token;
        NcclV2._num_gpus := num_gpus; NcclV2._comm_quant_mode := comm_quant_mode |}.

Definition CustomAllReduceV2_init (sp : SciPy) (backend_context : string) (h tp_size : Z)
    (estimator : option Estimator) (scale_factor : float) : result CustomAllReduceV2.t :=
  base ← OperationV2.init sp backend_context estimator scale_factor
           CustomAllReduceV2.load_data;
  ok {| CustomAllReduceV2.base := base; CustomAllReduceV2._h := h;
        CustomAllReduceV2._tp_size := tp_size |}.

Definition P2PV2_init (sp : SciPy) (backend_context : string) (h pp_size : Z)
    (estimator : option Estimator) (scale_factor : float) : result P2PV2.t :=
  base ← OperationV2.init sp backend_context estimator scale_factor P2PV2.load_data;
  ok {| P2PV2.base := base; P2PV2._h := h; P2PV2._pp_size := pp_size |}.

Definition MoEV2_init (sp : SciPy) (backend_context : string)
    (hidden_size inter_size topk num_experts moe_tp_size moe_ep_size : Z)
    (quant_mode : QuantMode) (workload_distribution : string) (attention_dp_size : Z)
    (estimator : option Estimator) (scale_factor : float) (is_context is_gated : bool)
  : result MoEV2.t :=
  let num_gemms := if is_gated then 3 else 2 in
  w ← floordiv (hidden_size * inter_size * num_experts * memory quant_mode * num_gemms)
               moe_ep_size;
  weights ← floordiv w moe_tp_size;
  base ← OperationV2.init sp backend_context estimator scale_factor MoEV2.load_data;
  ok {| MoEV2.base := base; MoEV2._hidden_size := hidden_size;
        MoEV2._inter_size := inter_size; MoEV2._topk := topk;
        MoEV2._num_experts := num_experts; MoEV2._moe_tp_size := moe_tp_size;
        MoEV2._moe_ep_size := moe_ep_size; MoEV2._quant_mode := quant_mode;
        MoEV2._workload_distribution := workload_distribution;
        MoEV2._attention_dp_size := attention_dp_size;
        MoEV2._is_context := is_context; MoEV2._is_gated := is_gated;
        MoEV2._weights := weights |}.

Definition ElementWiseV2_init (sp : SciPy) (backend_context : string) (dim_in dim_out : Z)
    (estimator : option Estimator) (scale_factor : float) (scale_num_tokens : Z)
  : result ElementWiseV2.t :=
  base ← OperationV2.init sp backend_context estimator scale_factor
           ElementWiseV2.load_data;
  ok {| ElementWiseV2.base := base; ElementWiseV2._dim_in := dim_in;
        ElementWiseV2._dim_out := dim_out;
        ElementWiseV2._scale_num_tokens := scale_num_tokens |}.

Definition EmbeddingV2_init (sp : SciPy) (backend_context : string)
    (row_size column_size : Z) (estimator : option Estimator) (scale_factor : float)
  : result EmbeddingV2.t :=
  base ← OperationV2.init sp backend_context estimator scale_factor EmbeddingV2.load_data;
  ok {| EmbeddingV2.base := base; EmbeddingV2._row_size := row_size;
        EmbeddingV2._column_size := column_size |}.

(** [MoEDispatchV2.__init__]; [backend] is [db_reference.backend]. *)
Definition MoEDispatchV2_init (backend : string)
    (hidden_size topk num_experts moe_tp_size moe_ep_size attention_dp_size : Z)
    (pre_dispatch : bool) (scale_factor : float) : result MoEDispatchV2.t :=
  attention_tp_size ← floordiv (moe_tp_size * moe_ep_size) attention_dp_size;
  ok {| MoEDispatchV2.base :=
          CompositeOperationV2.init backend MoEDispatchV2.sub_operations scale_factor;
        MoEDispatchV2._hidden_size := hidden_size; MoEDispatchV2._topk := topk;
        MoEDispatchV2._num_experts := num_experts;
        MoEDispatchV2._moe_tp_size := moe_tp_size;
        MoEDispatchV2._moe_ep_size := moe_ep_size;
        MoEDispatchV2._attention_dp_size := attention_dp_size;
        MoEDispatchV2._pre_dispatch := pre_dispatch;
        MoEDispatchV2._attention_tp_size := attention_tp_size;
        MoEDispatchV2.num_gpus := moe_ep_size * moe_tp_size |}.

(** An operation of a shipped class (the thirteen of [operations/__init__])
    as its constructor returns it, for the estimator and the scale factor
    passed in. The constructor of the dispatch composite takes no
    estimator: its base class stores [None]. *)
Inductive Constructed (sp : SciPy) (estimator : option Estimator) (scale_factor : float)
  : Operation.t → Prop :=
| constructed_gemm bc n k q snt lpi o :
    GemmV2_init sp bc n k q estimator scale_factor snt lpi = ok o →
    Constructed sp estimator scale_factor (Operation.Gemm o)
| constructed_context_attention bc n n_kv kq fq w hs o :
    ContextAttentionV2_init sp bc n n_kv kq fq estimator scale_factor w hs = ok o →
    Constructed sp estimator scale_factor (Operation.ContextAttention o)
| constructed_generation_attention bc n n_kv kq w hs o :
    GenerationAttentionV2_init sp bc n n_kv kq estimator scale_factor w hs = ok o →
    Constructed sp estimator scale_factor (Operation.GenerationAttention o)
| constructed_context_mla bc nh kq fq o :
    ContextMLAV2_init sp bc nh kq fq estimator scale_factor = ok o →
    Constructed sp estimator scale_factor (Operation.ContextMLA o)
| constructed_generation_mla bc nh kq o :
    GenerationMLAV2_init sp bc nh kq estimator scale_factor = ok o →
    Constructed sp estimator scale_factor (Operation.GenerationMLA o)
| constructed_mla_bmm bc nh q pre o :
    MLABmmV2_init sp bc nh q pre estimator scale_factor = ok o →
    Constructed sp estimator scale_factor (Operation.MLABmm o)
| constructed_nccl bc op ne ng q o :
    NcclV2_init sp bc op ne ng q estimator scale_factor = ok o →
    Constructed sp estimator scale_factor (Operation.Nccl o)
| constructed_custom_allreduce bc h tp o :
    CustomAllReduceV2_init sp bc h tp estimator scale_factor = ok o →
    Constructed sp estimator scale_factor (Operation.CustomAllReduce o)
| constructed_p2p bc h pp o :
    P2PV2_init sp bc h pp estimator scale_factor = ok o →
    Constructed sp estimator scale_factor (Operation.P2P o)
| constructed_moe bc hs isz tk ne tp ep q wd dp ctx gated o :
    MoEV2_init sp bc hs isz tk ne tp ep q wd dp estimator scale_factor ctx gated = ok o →
    Constructed sp estimator scale_factor (Operation.MoE o)
| constructed_element_wise bc din dout snt o :
    ElementWiseV2_init sp bc din dout estimator scale_factor snt = ok o →
    Constructed sp estimator scale_factor (Operation.ElementWise o)
| constructed_embedding bc rs cs o :
    EmbeddingV2_init sp bc rs cs estimator scale_factor = ok o →
    Constructed sp estimator scale_factor (Operation.Embedding o)
| constructed_moe_dispatch backend hs tk ne tp ep dp pre o :
    estimator = None →
    MoEDispatchV2_init backend hs tk ne tp ep dp pre scale_factor = ok o →
    Constructed sp estimator scale_factor (Operation.MoEDispatch o).

(** ** Sessions of the orchestrator *)

(** A call on the orchestrator by setup or model code. *)
Inductive command : Type :=
| Register (name : string) (op : Operation.t)
| RegisterMany (ops : Dict.t Operation.t)
| Unregister (name : string)
| Clear
| Query (depth : nat) (op_name : string) (kw : kwargs).

(** The database after the call, whether it returned or raised. *)
Definition after (c : command) (db : DatabaseV2.t) : DatabaseV2.t :=
  match c with
  | Register name op => final (run (DatabaseV2.register_operation name op) db)
  | RegisterMany ops => final (run (DatabaseV2.register_operations ops) db)
  | Unregister name => final (run (DatabaseV2.unregister_operation name) db)
  | Clear => final (run DatabaseV2.clear db)
  | Query depth op_name kw => final (run (DatabaseV2.query depth op_name kw) db)
  end.

(** The database after a session: the calls in order, from a new database. *)
Definition session (backend : string) (mode : DatabaseMode)
    (system_spec : option (Dict.t string)) (cs : list command) : DatabaseV2.t :=
  foldl (λ db c, after c db) (DatabaseV2.init backend mode system_spec) cs.

(** The keyword arguments a class reads with [kwargs[name]], in the order
    its [get_lookup_key] reads them. *)
Definition required (op : Operation.t) : list string :=
  match op with
  | Operation.Gemm _ => ["M"]
  | Operation.ContextAttention _ | Operation.GenerationAttention _
  | Operation.ContextMLA _ | Operation.GenerationMLA _ => ["batch_size"; "s"]
  | Operation.MLABmm _ => ["batch_size"]
  | Operation.Nccl _ | Operation.CustomAllReduce _ | Operation.P2P _
  | Operation.MoE _ | Operation.ElementWise _ | Operation.Embedding _ => ["x"]
  | Operation.MoEDispatch _ | Operation.TestStub _ | Operation.TestDummy _
  | Operation.TestComposite _ => []
  end.

(** The divisor of the token count, for the classes that divide it. *)
Definition token_divisor (op : Operation.t) : option Z :=
  match op with
  | Operation.Gemm o => Some (GemmV2._scale_num_tokens o)
  | Operation.ElementWise o => Some (ElementWiseV2._scale_num_tokens o)
  | _ => None
  end.

(** The number of fields of a class's lookup key. *)
Definition arity (op : Operation.t) : option nat :=
  match op with
  | Operation.Gemm _ => Some 4%nat
  | Operation.ContextAttention _ => Some 9%nat
  | Operation.GenerationAttention _ => Some 7%nat
  | Operation.ContextMLA _ => Some 6%nat
  | Operation.GenerationMLA _ => Some 4%nat
  | Operation.MLABmm _ => Some 4%nat
  | Operation.Nccl _ => Some 4%nat
  | Operation.CustomAllReduce _ => Some 3%nat
  | Operation.P2P _ => Some 1%nat
  | Operation.MoE _ => Some 10%nat
  | Operation.ElementWise _ => Some 1%nat
  | Operation.Embedding _ => Some 1%nat
  | Operation.MoEDispatch _ | Operation.TestComposite _ => Some 0%nat
  | Operation.TestDummy _ => Some 1%nat
  | Operation.TestStub _ => None
  end.

(** The first name of [names] that [kw] does not bind. *)
Fixpoint first_missing (kw : kwargs) (names : list string) : option string :=
  match names with
  | [] => None
  | n :: names' =>
      match kwargs_lookup kw n with
      | None => Some n
      | Some _ => first_missing kw names'
      end
  end.

(** ** Log formatting ([logging_utils.py])

    A Python [str] is the list of its code points. The record formatting of
    the [logging] library is outside the model: [format] takes the message
    [super().format(record)] returned. *)

Module ColoredFormatter.

Definition str : Type := list N.

(** A literal without escapes. *)
Definition lit (s : string) : str := Ascii.N_of_ascii <$> String.list_ascii_of_string s.

(** The escape character, octal 033. *)
Definition ESC : N := 27.

Definition GREY : str := ESC :: lit "[90m".
Definition BLUE : str := ESC :: lit "[94m".
Definition YELLOW : str := ESC :: lit "[93m".
Definition RED : str := ESC :: lit "[91m".
Definition CYAN : str := ESC :: lit "[96m".
Definition RESET : str := ESC :: lit "[0m".

Definition space : N := 32.
Definition closing_bracket : N := 93.

(** [self.use_colors], as [__init__] sets it from [sys.stdout.isatty()] and
    [os.environ.get("NO_COLOR")]. *)
Definition init (isatty : bool) (no_color : option str) : bool :=
  isatty && bool_decide (no_color = None).

(** [s.startswith(sub)] *)
Fixpoint startswith (sub s : str) : bool :=
  match sub, s with
  | [], _ => true
  | _ :: _, [] => false
  | a :: sub', b :: s' => bool_decide (a = b) && startswith sub' s'
  end.

(** [sub in s] *)
Fixpoint contains (sub s : str) : bool :=
  startswith sub s
  || match s with
     | [] => false
     | _ :: s' => contains sub s'
     end.

(** [s.split(sep, maxsplit)] for a separator of one character. *)
Fixpoint split (sep : N) (s : str) (maxsplit : nat) : list str :=
  match s with
  | [] => [[]]
  | c :: s' =>
      match maxsplit with
      | O => [s]
      | S m =>
          if decide (c = sep) then [] :: split sep s' m
          else match split sep s' maxsplit with
               | part :: parts => (c :: part) :: parts
               | [] => [[c]]
               end
      end
  end.

(** [s.find(c)] for a string [c] of one character; [None] is [-1]. *)
Fixpoint find (c : N) (s : str) : option nat :=
  match s with
  | [] => None
  | x :: s' => if decide (x = c) then Some 0%nat else S <$> find c s'
  end.

(** The characters [str.lstrip()] removes: the whitespace of Unicode. *)
Definition is_space (c : N) : bool :=
  ((9 <=? c) && (c <=? 13) || (28 <=? c) && (c <=? 32)
   || (c =? 133) || (c =? 160) || (c =? 5760)
   || (8192 <=? c) && (c <=? 8202)
   || (c =? 8232) || (c =? 8233) || (c =? 8239) || (c =? 8287) || (c =? 12288))%N.

(** [s.lstrip()] *)
Fixpoint lstrip (s : str) : str :=
  match s with
  | [] => []
  | c :: s' => if is_space c then lstrip s' else s
  end.

(** The dictionary of [_color_level], by level character. *)
Definition color_map : list (str * str) :=
  [(lit "I", BLUE); (lit "W", YELLOW); (lit "E", RED); (lit "D", CYAN)].

Fixpoint color_of (m : list (str * str)) (level_char : str) : option str :=
  match m with
  | [] => None
  | (k, v) :: m' => if decide (k = level_char) then Some v else color_of m' level_char
  end.

Definition _color_level (level_char level_part : str) : str :=
  match color_of color_map level_char with
  | Some color => color ++ level_part ++ RESET
  | None => level_part
  end.

(** [format], on the message the base formatter returned. *)
Definition format (use_colors : bool) (log_message : str) : str :=
  if negb use_colors then log_message
  else if contains (lit "[aiconfigurator]") log_message then
    match split space log_message 3 with
    | time_part :: aiconfig_part :: level_part :: rest :: _ =>
        match find closing_bracket rest with
        | Some bracket_end =>
            let filename_part := take (bracket_end + 1) rest in
            let message_part := lstrip (drop (bracket_end + 1) rest) in
            let colored_header :=
              GREY ++ time_part ++ [space] ++ aiconfig_part ++ [space]
                   ++ filename_part ++ RESET in
            let level_char :=
              match level_part with
              | _ :: c :: _ => [c]
              | _ => [space]
              end in
            let colored_level := _color_level level_char level_part in
            colored_header ++ [space] ++ colored_level ++ [space] ++ message_part
        | None => log_message
        end
    | _ => log_message
    end
  else log_message.

End ColoredFormatter.

(** * Properties *)

(** ** The monad *)

Lemma bind_run {S A B : Type} (m : Py S A) (k : A → Py S B) (s : S) :
  (m ≫= k) s =
  match value (m s) with
  | inl e => Outcome (inl e) (final (m s)) (calls (m s))
  | inr a =>
      Outcome (value (k a (final (m s)))) (final (k a (final (m s))))
              (calls (m s) ++ calls (k a (final (m s))))
  end.
Proof. reflexivity. Qed.

Lemma bind_lift_ok {S A B : Type} (a : A) (k : A → Py S B) (s : S) :
  (lift (ok a) ≫= k) s = k a s.
Proof. rewrite bind_run. simpl. by destruct (k a s). Qed.

Lemma bind_lift_throw {S A B : Type} (e : exn) (k : A → Py S B) (s : S) :
  (lift (throw e) ≫= k) s = Outcome (throw e) s [].
Proof. reflexivity. Qed.

Lemma read_only_ret {S A : Type} (a : A) : read_only (mret a : Py S A).
Proof. by intros s. Qed.

Lemma read_only_raise {S A : Type} (e : exn) : read_only (raise e : Py S A).
Proof. by intros s. Qed.

Lemma read_only_lift {S A : Type} (r : result A) : read_only (lift r : Py S A).
Proof. by intros s. Qed.

Lemma read_only_emit {S : Type} (ev : event) : read_only (emit ev : Py S unit).
Proof. by intros s. Qed.

Lemma read_only_gets {S A : Type} (f : S → A) : read_only (gets f).
Proof. by intros s. Qed.

Lemma read_only_bind {S A B : Type} (m : Py S A) (k : A → Py S B) :
  read_only m → (∀ a, read_only (k a)) → read_only (m ≫= k).
Proof.
  intros Hm Hk s. rewrite bind_run.
  destruct (value (m s)) as [e|a]; simpl; [apply Hm|].
  rewrite Hm. apply Hk.
Qed.

Create HintDb read_only.
#[global] Hint Resolve read_only_ret read_only_raise read_only_lift read_only_emit
  read_only_gets : read_only.

Ltac read_only_step :=
  first [ apply read_only_bind; [|intros ?] | solve [auto with read_only] ].

(** ** The shared query path *)

Lemma base_query_read_only {S : Type} (glk : kwargs → result lookup_key)
    (self : OperationV2.t) (kw : kwargs) :
  read_only (OperationV2.query (S:=S) glk self kw).
Proof.
  unfold OperationV2.query. read_only_step; [read_only_step|].
  destruct (index_get _ _); [read_only_step|].
  destruct (OperationV2.estimator self); repeat read_only_step.
Qed.

Lemma base_query_hit {S : Type} (glk : kwargs → result lookup_key)
    (self : OperationV2.t) (kw : kwargs) (key : lookup_key) (entry : Entry) (s : S) :
  glk kw = ok key →
  index_get (OperationV2.exact_match_dict self) key = Some entry →
  OperationV2.query glk self kw s =
    Outcome (ok (OperationV2.scaled self (latency entry) (energy_or_zero entry))) s [].
Proof.
  intros Hk Hi. unfold OperationV2.query. rewrite Hk, bind_lift_ok, Hi. reflexivity.
Qed.

Lemma base_query_miss {S : Type} (glk : kwargs → result lookup_key)
    (self : OperationV2.t) (kw : kwargs) (key : lookup_key) (s : S) :
  glk kw = ok key →
  index_get (OperationV2.exact_match_dict self) key = None →
  OperationV2.estimator self = None →
  OperationV2.query glk self kw s = Outcome (throw (OperationV2.lookup_miss key)) s [].
Proof.
  intros Hk Hi He. unfold OperationV2.query. rewrite Hk, bind_lift_ok, Hi, He. reflexivity.
Qed.

(** C5: a custom all-reduce with [tp_size = 1] and a point-to-point with
    [pp_size = 1] return (0, 0) for every keyword arguments, whatever the
    exact-match index, the sample table, the estimator and the scale factor
    in their fields [b]; the orchestrator is untouched and [predict] is not
    called. *)
Theorem short_circuit_returns_zero :
  ∀ (S : Type) (db_query : string → kwargs → Py S PerformanceResult.t)
    (b : OperationV2.t) (h : Z) (kw : kwargs) (s : S),
    Operation.query db_query
      (Operation.CustomAllReduce
         {| CustomAllReduceV2.base := b; CustomAllReduceV2._h := h;
            CustomAllReduceV2._tp_size := 1 |}) kw s
    = Outcome (ok (PerformanceResult.new 0 0)) s []
    ∧ Operation.query db_query
        (Operation.P2P {| P2PV2.base := b; P2PV2._h := h; P2PV2._pp_size := 1 |}) kw s
      = Outcome (ok (PerformanceResult.new 0 0)) s [].
Proof. intros. split; reflexivity. Qed.

Lemma gemm_query_hit {S : Type} (o : GemmV2.t) (kw : kwargs) (key : lookup_key)
    (entry : Entry) (s : S) :
  GemmV2.get_lookup_key o kw = ok key →
  index_get (OperationV2.exact_match_dict (GemmV2.base o)) key = Some entry →
  GemmV2.query o kw s =
    Outcome (ok (OperationV2.scaled (GemmV2.base o) (latency entry) (energy_or_zero entry)))
            s [].
Proof.
  intros Hk Hi. unfold GemmV2.query. rewrite Hk, bind_lift_ok, Hi. reflexivity.
Qed.

Lemma gemm_query_miss {S : Type} (o : GemmV2.t) (kw : kwargs) (key : lookup_key) (s : S) :
  GemmV2.get_lookup_key o kw = ok key →
  index_get (OperationV2.exact_match_dict (GemmV2.base o)) key = None →
  OperationV2.estimator (GemmV2.base o) = None →
  GemmV2.query o kw s = Outcome (throw (GemmV2.lookup_miss key)) s [].
Proof.
  intros Hk Hi He. unfold GemmV2.query. rewrite Hk, bind_lift_ok, Hi, He. reflexivity.
Qed.

(** Outside the composites and the short circuits, [query] is the shared
    path, or the matrix multiply's copy of it. *)
Lemma query_lookup_path {S : Type} (db_query : string → kwargs → Py S PerformanceResult.t)
    (op : Operation.t) (kw : kwargs) :
  is_composite op = false → short_circuits op = false →
  Operation.query db_query op kw =
    match op with
    | Operation.Gemm o => GemmV2.query o kw
    | _ => OperationV2.query (Operation.get_lookup_key op) (Operation.fields op) kw
    end.
Proof.
  intros Hc Hs. destruct op; try reflexivity; try discriminate; simpl in *.
  - unfold CustomAllReduceV2.query. apply bool_decide_eq_false in Hs.
    by rewrite decide_False.
  - unfold P2PV2.query. apply bool_decide_eq_false in Hs.
    by rewrite decide_False.
Qed.

(** C1 (amended): for every operation that is neither a composite nor
    short-circuited (a custom all-reduce with [tp_size = 1], a
    point-to-point with [pp_size = 1]), every keyword arguments whose lookup
    key is in the exact-match index and every scale factor, [query] returns
    the stored latency times the scale factor and the stored energy (0 when
    the record has none) times the scale factor; the trace of [predict]
    calls is empty and the orchestrator is untouched. *)
Theorem exact_match_scaled :
  ∀ (S : Type) (db_query : string → kwargs → Py S PerformanceResult.t)
    (op : Operation.t) (kw : kwargs) (key : lookup_key) (entry : Entry) (s : S),
    is_composite op = false →
    short_circuits op = false →
    Operation.get_lookup_key op kw = ok key →
    index_get (OperationV2.exact_match_dict (Operation.fields op)) key = Some entry →
    Operation.query db_query op kw s =
      Outcome
        (ok (PerformanceResult.new
               (latency entry * OperationV2.scale_factor (Operation.fields op))%float
               (default 0%float (energy entry)
                * OperationV2.scale_factor (Operation.fields op))%float))
        s [].
Proof.
  intros S db_query op kw key entry s Hc Hs Hk Hi.
  rewrite query_lookup_path by done.
  destruct op; first [ by eapply base_query_hit | by eapply gemm_query_hit ].
Qed.

(** As in [test_scale_factor]: a stored (10, 50) under scale factor 2. *)
Lemma exact_match_scaled_witness :
  let key := [VStr "float16"; VInt 32; VInt 1024; VInt 512] in
  let op := Operation.Gemm
              (Fixture.gemm 1024 512 GEMMQuantMode_float16 2
                 (index_of [(key, Fixture.entry 10 50)]) None) in
  Operation.query (S:=unit) (λ _ _, raise RecursionError) op [("M", 32)] tt
  = Outcome (ok (PerformanceResult.new (10 * 2) (50 * 2))) tt [].
Proof.
  intros key op.
  apply (exact_match_scaled unit (λ _ _, raise RecursionError) op [("M", 32)]
           key (Fixture.entry 10 50) tt); reflexivity.
Defined.

(** C1 as stated fails on a short-circuited kind: a custom all-reduce with
    [tp_size = 1] whose index holds the key of the call returns (0, 0), not
    the stored (7, 35) times its scale factor 1. *)
Lemma exact_match_short_circuit_counterexample :
  let op := Fixture.custom_allreduce 4096 1
              (index_of [([VStr "half"; VInt 1; VInt 524288], Fixture.entry 7 35)]) in
  let kw := [("x", 128)] in
  let key := [VStr "half"; VInt 1; VInt 524288] in
  Operation.get_lookup_key op kw = ok key
  ∧ index_get (OperationV2.exact_match_dict (Operation.fields op)) key
    = Some (Fixture.entry 7 35)
  ∧ value (run (DatabaseV2.query 1 "custom_allreduce" kw)
             (Fixture.database [("custom_allreduce", op)]))
    = ok (PerformanceResult.new 0 0)
  ∧ PerformanceResult.to_float (PerformanceResult.new 0 0) ≠ (7 * 1)%float.
Proof.
  repeat split; try (vm_compute; reflexivity).
  intros H. apply (f_equal PrimFloat.is_zero) in H. vm_compute in H. discriminate.
Qed.

(** ** Messages *)

Lemma append_assoc (a b c : string) : (a +:+ b) +:+ c = a +:+ b +:+ c.
Proof.
  induction a as [|ch a IH]; [reflexivity|].
  change (String ch ((a +:+ b) +:+ c) = String ch (a +:+ b +:+ c)). by f_equal.
Qed.

Lemma append_nil_r (a : string) : a +:+ "" = a.
Proof.
  induction a as [|ch a IH]; [reflexivity|].
  change (String ch (a +:+ "") = String ch a). by f_equal.
Qed.

Lemma mentions_middle (pre s post : string) : mentions (pre +:+ s +:+ post) s.
Proof. by exists pre, post. Qed.

Lemma mentions_prepend (pre msg s : string) : mentions msg s → mentions (pre +:+ msg) s.
Proof.
  intros (a & b & ->). exists (pre +:+ a), b. by rewrite append_assoc.
Qed.

Lemma mentions_append (msg post s : string) : mentions msg s → mentions (msg +:+ post) s.
Proof.
  intros (a & b & ->). exists a, (b +:+ post). by rewrite !append_assoc.
Qed.

Lemma mentions_refl (s : string) : mentions s s.
Proof.
  exists "", "". change (s = s +:+ ""). by rewrite append_nil_r.
Qed.

(** C3 (amended): for every operation without an Estimator that is neither
    a composite nor short-circuited, and every keyword arguments whose
    lookup key is absent from the exact-match index, [query] raises a
    [ValueError] whose message names the computed key. The message of the
    matrix multiply starts with "No match for GEMM key", naming its kind;
    the message shared by the other kinds starts with "No exact match for
    key" and names no kind. *)
Theorem lookup_miss_without_estimator :
  ∀ (S : Type) (db_query : string → kwargs → Py S PerformanceResult.t)
    (op : Operation.t) (kw : kwargs) (key : lookup_key) (s : S),
    is_composite op = false →
    short_circuits op = false →
    OperationV2.estimator (Operation.fields op) = None →
    Operation.get_lookup_key op kw = ok key →
    index_get (OperationV2.exact_match_dict (Operation.fields op)) key = None →
    ∃ msg : string,
      Operation.query db_query op kw s = Outcome (throw (ValueError msg)) s []
      ∧ mentions msg (Repr.tuple key)
      ∧ msg = (match op with
               | Operation.Gemm _ => "No match for GEMM key "
               | _ => "No exact match for key "
               end) +:+ Repr.tuple key +:+ " and no Estimator configured.".
Proof.
  intros S db_query op kw key s Hc Hs He Hk Hi.
  rewrite query_lookup_path by done.
  destruct op;
    (eexists; split;
     [ first [ by eapply base_query_miss | by eapply gemm_query_miss ]
     | split; [apply mentions_middle | reflexivity] ]).
Qed.

(** As in [test_missing_key_no_estimator_raises], on a matrix multiply; and
    a collective whose [nccl_op] holds a single quote, which the key in the
    message shows between double quotes. *)
Lemma lookup_miss_without_estimator_witness :
  let op := Operation.Gemm (Fixture.gemm 1024 512 GEMMQuantMode_float16 1 ∅ None) in
  let nccl :=
    Operation.Nccl {| NcclV2.base := Fixture.fields 1 ∅ None;
                      NcclV2._nccl_op := "all'gather";
                      NcclV2._num_elements_per_token := 4096;
                      NcclV2._num_gpus := 8;
                      NcclV2._comm_quant_mode := CommQuantMode_half |} in
  (∃ msg : string,
     Operation.query (S:=unit) (λ _ _, raise RecursionError) op [("M", 32)] tt
     = Outcome (throw (ValueError msg)) tt []
     ∧ mentions msg (Repr.tuple [VStr "float16"; VInt 32; VInt 1024; VInt 512])
     ∧ msg = "No match for GEMM key ('float16', 32, 1024, 512)"
             +:+ " and no Estimator configured.")
  ∧ (∃ msg : string,
       Operation.query (S:=unit) (λ _ _, raise RecursionError) nccl [("x", 2)] tt
       = Outcome (throw (ValueError msg)) tt []
       ∧ mentions msg (Repr.tuple [VStr "half"; VStr "all'gather"; VInt 8; VInt 8192])
       ∧ msg = "No exact match for key ('half', "
               +:+ String Repr.double_quote
                     ("all'gather" +:+ String Repr.double_quote
                        ", 8, 8192) and no Estimator configured.")).
Proof.
  intros op nccl. split.
  - apply (lookup_miss_without_estimator unit (λ _ _, raise RecursionError) op
             [("M", 32)] [VStr "float16"; VInt 32; VInt 1024; VInt 512] tt);
      reflexivity.
  - apply (lookup_miss_without_estimator unit (λ _ _, raise RecursionError) nccl
             [("x", 2)] [VStr "half"; VStr "all'gather"; VInt 8; VInt 8192] tt);
      reflexivity.
Defined.

(** C3 as stated fails twice. A custom all-reduce with [tp_size = 1], no
    Estimator and an empty index does not fail: it returns (0, 0). And the
    message of the shared path names no kind: a point-to-point and an
    embedding that miss on the same key raise the same exception. *)
Lemma lookup_miss_counterexample :
  let allreduce := Fixture.custom_allreduce 4096 1 ∅ in
  let p2p := Fixture.p2p 1 2 in
  let embedding := Fixture.embedding 8 1 in
  let q (op : Operation.t) (kw : kwargs) :=
    value (Operation.query (S:=unit) (λ _ _, raise RecursionError) op kw tt) in
  (OperationV2.estimator (Operation.fields allreduce) = None
   ∧ Operation.get_lookup_key allreduce [("x", 128)]
     = ok [VStr "half"; VInt 1; VInt 524288]
   ∧ index_get (OperationV2.exact_match_dict (Operation.fields allreduce))
       [VStr "half"; VInt 1; VInt 524288] = None
   ∧ q allreduce [("x", 128)] = ok (PerformanceResult.new 0 0))
  ∧ (q p2p [("x", 1)]
     = throw (ValueError "No exact match for key (2,) and no Estimator configured.")
     ∧ q embedding [("x", 1)]
       = throw (ValueError "No exact match for key (2,) and no Estimator configured.")).
Proof. repeat split; vm_compute; reflexivity. Qed.

(** ** Composite aggregation *)

Lemma ret_run {S A : Type} (a : A) (s : S) : (mret a : Py S A) s = Outcome (ok a) s [].
Proof. reflexivity. Qed.

Ltac run_simpl :=
  repeat first [ rewrite ret_run
               | progress unfold ok, throw
               | progress cbn [value final calls foldl] ].

(** The loop of [_StubComposite.query], started from any [total], is the
    list of sub-query results folded onto [total]. *)
Lemma loop_sub_queries {S : Type}
    (db_query : string → kwargs → Py S PerformanceResult.t)
    (subs : list string) (kw : kwargs) :
  ∀ (total : PerformanceResult.t) (s : S),
    StubComposite.loop db_query subs kw total s =
    (rs ← sub_queries db_query subs kw;
     mret (foldl PerformanceResult.add total rs)) s.
Proof.
  induction subs as [|sub subs IH]; intros total s; [reflexivity|].
  cbn [StubComposite.loop sub_queries]. rewrite !bind_run.
  destruct (db_query sub kw s) as [[e|r] s1 c1]; cbn [value final calls]; [reflexivity|].
  rewrite IH, !bind_run.
  destruct (sub_queries db_query subs kw s1) as [[e|rs] s2 c2];
    cbn [value final calls]; [reflexivity|].
  run_simpl. by rewrite !app_nil_r.
Qed.

Lemma stub_composite_query_spec {S : Type}
    (db_query : string → kwargs → Py S PerformanceResult.t)
    (o : StubComposite.t) (kw : kwargs) (s : S) :
  StubComposite.query db_query o kw s =
  spec_composite_query db_query
    (CompositeOperationV2.sub_operations (StubComposite.base o))
    (OperationV2.scale_factor (CompositeOperationV2.base (StubComposite.base o)))
    kw s.
Proof.
  unfold StubComposite.query, spec_composite_query.
  rewrite !bind_run, loop_sub_queries, !bind_run.
  destruct (sub_queries db_query _ kw s) as [[e|rs] s1 c1];
    cbn [value final calls]; [reflexivity|].
  run_simpl. by rewrite !app_nil_r.
Qed.

(** C2 (amended): the summing composite ([_StubComposite], the concrete
    composite of the tests) issues one orchestrator sub-query per
    sub-operation name, in order, sums the results pairwise from (0, 0) and
    multiplies the total by its scale factor. With sub-results (5, 25) and
    (3, 15) and scale factor 1 it returns (8, 40); with the single
    sub-result (10, 50) and scale factor 3 it returns (30, 150), and with
    the single sub-result (5, 25) and scale factor 3 it returns (15, 75). *)
Theorem composite_sums_sub_queries :
  ∀ (S : Type) (db_query : string → kwargs → Py S PerformanceResult.t)
    (o : StubComposite.t) (kw : kwargs) (s : S),
    Operation.query db_query (Operation.TestComposite o) kw s
    = spec_composite_query db_query
        (CompositeOperationV2.sub_operations (StubComposite.base o))
        (OperationV2.scale_factor (CompositeOperationV2.base (StubComposite.base o)))
        kw s
    ∧ (let db := Fixture.database [("a", Fixture.stub 5 25); ("b", Fixture.stub 3 15)] in
       value (run (Operation.query (DatabaseV2.query 1)
                     (Fixture.composite ["a"; "b"] 1) [("a", 1); ("b", 2)]) db)
       = ok (PerformanceResult.new 8 40))
    ∧ (let db := Fixture.database [("a", Fixture.stub 10 50)] in
       value (run (Operation.query (DatabaseV2.query 1)
                     (Fixture.composite ["a"] 3) [("a", 1); ("b", 2)]) db)
       = ok (PerformanceResult.new 30 150))
    ∧ (let db := Fixture.database [("a", Fixture.stub 5 25)] in
       value (run (Operation.query (DatabaseV2.query 1)
                     (Fixture.composite ["a"] 3) [("a", 1); ("b", 2)]) db)
       = ok (PerformanceResult.new 15 75)).
Proof.
  intros. split; [apply stub_composite_query_spec|].
  repeat split; vm_compute; reflexivity.
Qed.

(** C2 as stated fails on its second example: the single sub-result
    (5, 25) under scale factor 3 gives (15, 75), whose latency is not 30. *)
Lemma composite_scale_counterexample :
  let db := Fixture.database [("a", Fixture.stub 5 25)] in
  let r := value (run (Operation.query (DatabaseV2.query 1)
                         (Fixture.composite ["a"] 3) [("a", 1); ("b", 2)]) db) in
  r = ok (PerformanceResult.new 15 75)
  ∧ r ≠ ok (PerformanceResult.new 30 150).
Proof.
  split; [vm_compute; reflexivity|].
  vm_compute. intros H.
  apply (f_equal (λ r : result PerformanceResult.t,
                    match r with
                    | inr p => PrimFloat.eqb (PerformanceResult.latency p) 30
                    | inl _ => true
                    end)) in H.
  vm_compute in H. discriminate.
Qed.

(** The dispatch composite of [operations/moe.py] issues no sub-query: it
    returns (0, 0) whatever is registered under its sub-operation names. *)
Lemma moe_dispatch_returns_zero (S : Type)
    (db_query : string → kwargs → Py S PerformanceResult.t)
    (o : MoEDispatchV2.t) (kw : kwargs) (s : S) :
  Operation.query db_query (Operation.MoEDispatch o) kw s
  = Outcome (ok (PerformanceResult.new 0 0)) s [].
Proof. reflexivity. Qed.

(** With (5, 25) registered as "nccl" and (3, 15) as "custom_allreduce",
    the dispatch composite still answers (0, 0). *)
Lemma moe_dispatch_ignores_sub_operations :
  let db := Fixture.database [("nccl", Fixture.stub 5 25);
                              ("custom_allreduce", Fixture.stub 3 15)] in
  let kw := [("a", 1); ("b", 2)] in
  value (run (DatabaseV2.query 1 "nccl" kw) db) = ok (PerformanceResult.new 5 25)
  ∧ value (run (DatabaseV2.query 1 "custom_allreduce" kw) db)
    = ok (PerformanceResult.new 3 15)
  ∧ run (Operation.query (DatabaseV2.query 1) (Fixture.dispatch 1) kw) db
    = Outcome (ok (PerformanceResult.new 0 0)) db [].
Proof. repeat split; vm_compute; reflexivity. Qed.

(** ** The registry *)

Lemma dict_contains_get {V : Type} (d : Dict.t V) (key : string) :
  Dict.contains d key = true ↔ is_Some (Dict.get d key).
Proof. unfold Dict.contains. by rewrite bool_decide_eq_true. Qed.

Lemma dict_contains_false {V : Type} (d : Dict.t V) (key : string) :
  Dict.contains d key = false ↔ Dict.get d key = None.
Proof.
  unfold Dict.contains. rewrite bool_decide_eq_false.
  by rewrite eq_None_not_Some.
Qed.

Lemma dict_get_keys {V : Type} (d : Dict.t V) (key : string) :
  is_Some (Dict.get d key) ↔ key ∈ Dict.keys d.
Proof.
  unfold Dict.keys. induction d as [|[k v] d IH]; simpl.
  - split; [by intros [? ?]|by intros ?%elem_of_nil].
  - rewrite elem_of_cons. destruct (decide (k = key)) as [->|Hne].
    + split; [by left|by eauto].
    + rewrite IH. split; [by right|]. intros [?|?]; [congruence|done].
Qed.

Lemma dict_get_set_eq {V : Type} (d : Dict.t V) (key : string) (v : V) :
  Dict.get (Dict.set d key v) key = Some v.
Proof.
  induction d as [|[k v'] d IH]; simpl.
  - by rewrite decide_True.
  - destruct (decide (k = key)) as [->|Hne]; simpl.
    + by rewrite decide_True.
    + by rewrite decide_False.
Qed.

Lemma dict_get_set_ne {V : Type} (d : Dict.t V) (key key' : string) (v : V) :
  key ≠ key' → Dict.get (Dict.set d key v) key' = Dict.get d key'.
Proof.
  intros Hne. induction d as [|[k v'] d IH]; simpl.
  - by rewrite decide_False.
  - destruct (decide (k = key)) as [->|Hk]; simpl.
    + by rewrite !decide_False.
    + destruct (decide (k = key')); [done|apply IH].
Qed.

Lemma dict_set_set {V : Type} (d : Dict.t V) (key : string) (v1 v2 : V) :
  Dict.set (Dict.set d key v1) key v2 = Dict.set d key v2.
Proof.
  induction d as [|[k v'] d IH]; simpl.
  - by rewrite decide_True.
  - destruct (decide (k = key)) as [->|Hk]; simpl.
    + by rewrite decide_True.
    + rewrite decide_False by done. by rewrite IH.
Qed.

Lemma dict_keys_set {V : Type} (d : Dict.t V) (key : string) (v : V) :
  is_Some (Dict.get d key) → Dict.keys (Dict.set d key v) = Dict.keys d.
Proof.
  unfold Dict.keys. induction d as [|[k v'] d IH]; simpl.
  - by intros [? ?].
  - destruct (decide (k = key)) as [->|Hk]; simpl; [done|].
    intros H. f_equal. by apply IH.
Qed.

Lemma join_mentions (sep s : string) (l : list string) :
  s ∈ l → mentions (Repr.join sep l) s.
Proof.
  induction l as [|x l IH]; [by intros ?%elem_of_nil|].
  intros [Heq|Hin]%elem_of_cons; [subst x|].
  - destruct l as [|y l]; [apply mentions_refl|].
    apply (mentions_middle "" s (sep +:+ Repr.join sep (y :: l))).
  - destruct l as [|y l]; [by apply elem_of_nil in Hin|].
    change (mentions (x +:+ sep +:+ Repr.join sep (y :: l)) s).
    by apply mentions_prepend, mentions_prepend, IH.
Qed.

Lemma list_str_mentions (name : string) (l : list string) :
  name ∈ l → mentions (Repr.list_str l) (Repr.str name).
Proof.
  intros Hin. unfold Repr.list_str.
  apply mentions_prepend, mentions_append, join_mentions.
  by apply list_elem_of_fmap_2.
Qed.

(** [repr] of a plain string is the string between single quotes. *)
Lemma escape_plain (c : Ascii.ascii) :
  Repr.printable c && negb (bool_decide (c = Repr.single_quote))
  && negb (bool_decide (c = Repr.backslash)) = true →
  Repr.escape Repr.single_quote c = String c "".
Proof.
  destruct c as [[] [] [] [] [] [] [] []]; vm_compute; intros H;
    first [reflexivity | discriminate H].
Qed.

Lemma str_plain (s : string) :
  Repr.plain s = true → Repr.str s = "'" +:+ s +:+ "'".
Proof.
  intros Hplain.
  assert (Repr.has Repr.single_quote s = false
          ∧ Repr.escaped Repr.single_quote s = s) as [Hhas Hesc].
  { induction s as [|c s IH]; [done|].
    cbn [Repr.plain] in Hplain. apply andb_prop in Hplain as [Hc Hs].
    destruct (IH Hs) as [IH1 IH2]. split.
    - cbn [Repr.has]. rewrite IH1, orb_false_r.
      apply andb_prop in Hc as [Hc _]. apply andb_prop in Hc as [_ Hc].
      by apply negb_true_iff in Hc.
    - cbn [Repr.escaped]. rewrite (escape_plain c Hc), IH2. reflexivity. }
  unfold Repr.str, Repr.quote_of. rewrite Hhas. cbn [andb]. rewrite Hesc.
  reflexivity.
Qed.

(** Routing: what [DatabaseV2.query] does with a name, by whether it is
    registered. *)
Lemma database_query_unregistered (depth : nat) (op_name : string) (kw : kwargs)
    (db : DatabaseV2.t) :
  Dict.get (DatabaseV2._operations db) op_name = None →
  run (DatabaseV2.query (S depth) op_name kw) db
  = Outcome (throw (DatabaseV2.unregistered op_name
                      (Dict.keys (DatabaseV2._operations db)))) db [].
Proof.
  intros Hget. unfold run. cbn [DatabaseV2.query]. rewrite bind_run.
  unfold DatabaseV2.get_operation, gets. cbn [value final calls]. unfold ok.
  rewrite Hget. reflexivity.
Qed.

Lemma database_query_registered (depth : nat) (op_name : string) (kw : kwargs)
    (db : DatabaseV2.t) (op : Operation.t) :
  Dict.get (DatabaseV2._operations db) op_name = Some op →
  run (DatabaseV2.query (S depth) op_name kw) db
  = run (Operation.query (DatabaseV2.query depth) op kw) db.
Proof.
  intros Hget. unfold run. cbn [DatabaseV2.query]. rewrite bind_run.
  unfold DatabaseV2.get_operation, gets. cbn [value final calls]. unfold ok.
  rewrite Hget. by destruct (Operation.query _ op kw db).
Qed.

(** C4: for every database and every name that [has_operation] reports
    absent, [query] raises [NotImplementedError] with the message
    "Operation '<name>' is not registered. Available: <list>", where the
    list is [registered_operations] as [repr] prints it and shows every name
    [has_operation] reports present (as its [repr]: between single quotes
    as it is for a plain name, requoted or escaped for a name holding a
    quote, a backslash or an unprintable character); the database is
    untouched. For every name bound to an operation, [query] is that
    operation's own [query]: routing raises nothing. ([S depth]: at least
    one stack frame is left for the call.) *)
Theorem unregistered_operation_lists_names :
  ∀ (db : DatabaseV2.t) (op_name : string) (kw : kwargs) (depth : nat),
    (value (run (DatabaseV2.has_operation op_name) db) = ok false →
     let available := Dict.keys (DatabaseV2._operations db) in
     let msg := "Operation '" +:+ op_name +:+ "' is not registered. "
                +:+ "Available: " +:+ Repr.list_str available in
     value (run DatabaseV2.registered_operations db) = ok available
     ∧ run (DatabaseV2.query (S depth) op_name kw) db
       = Outcome (throw (NotImplementedError msg)) db []
     ∧ ∀ other : string,
         value (run (DatabaseV2.has_operation other) db) = ok true →
         mentions msg (Repr.str other)
         ∧ (Repr.plain other = true → mentions msg ("'" +:+ other +:+ "'")))
    ∧ (∀ op : Operation.t,
         value (run (DatabaseV2.get_operation op_name) db) = ok (Some op) →
         run (DatabaseV2.query (S depth) op_name kw) db
         = run (Operation.query (DatabaseV2.query depth) op kw) db).
Proof.
  intros db op_name kw depth. split.
  - intros Habs available msg. cbn in Habs.
    assert (Dict.get (DatabaseV2._operations db) op_name = None) as Hget.
    { apply dict_contains_false. by injection Habs. }
    split; [reflexivity|]. split; [by apply database_query_unregistered|].
    intros other Hother. cbn in Hother.
    assert (other ∈ available) as Hin.
    { apply dict_get_keys, dict_contains_get. by injection Hother. }
    assert (mentions msg (Repr.str other)) as Hm.
    { unfold msg. do 4 apply mentions_prepend. by apply list_str_mentions. }
    split; [exact Hm|]. intros Hplain. by rewrite <- (str_plain other Hplain).
  - intros op Hop. apply database_query_registered.
    cbn in Hop. by injection Hop.
Qed.

(** As in [test_query_unknown_op_raises] and [test_register_and_query];
    and a registered name holding a single quote, which the list shows
    between double quotes. *)
Lemma unregistered_operation_lists_names_witness :
  let db := Fixture.database [("a", Fixture.stub 5 25); ("b", Fixture.stub 3 15)] in
  let quoted := Fixture.database [("it's", Fixture.stub 5 25)] in
  run (DatabaseV2.query 1 "nonexistent" []) db
  = Outcome (throw (NotImplementedError
               "Operation 'nonexistent' is not registered. Available: ['a', 'b']"))
            db []
  ∧ run (DatabaseV2.query 1 "a" [("a", 1); ("b", 2)]) db
    = run (Operation.query (DatabaseV2.query 0) (Fixture.stub 5 25) [("a", 1); ("b", 2)]) db
  ∧ run (DatabaseV2.query 1 "nonexistent" []) quoted
    = Outcome (throw (NotImplementedError
                 ("Operation 'nonexistent' is not registered. Available: ["
                  +:+ String Repr.double_quote
                        ("it's" +:+ String Repr.double_quote "]"))))
              quoted [].
Proof.
  intros db quoted.
  pose proof (unregistered_operation_lists_names db "nonexistent" [] 0) as [H _].
  pose proof (unregistered_operation_lists_names db "a" [("a", 1); ("b", 2)] 0) as [_ H'].
  pose proof (unregistered_operation_lists_names quoted "nonexistent" [] 0) as [H'' _].
  split; [|split].
  - apply H. reflexivity.
  - apply H'. reflexivity.
  - apply H''. reflexivity.
Defined.

(** ** The matrix multiply *)

Lemma result_bind_ok {A B : Type} (a : A) (k : A → result B) : (ok a ≫= k) = k a.
Proof. reflexivity. Qed.

(** C6: for a matrix multiply called with [M] and a non-zero token scale,
    [get_lookup_key] is the 4-tuple (name of the quantisation mode,
    M // scale, N, K); and when that key misses the index and an Estimator is
    configured, [query] calls [predict] once, with [M = M // scale], [N] and
    [K] only (no quantisation mode), and returns its prediction times the
    scale factor. *)
Theorem gemm_key_and_estimator_arguments :
  ∀ (o : GemmV2.t) (kw : kwargs) (M : Z),
    kwargs_lookup kw "M" = Some M →
    GemmV2._scale_num_tokens o ≠ 0 →
    let m := M / GemmV2._scale_num_tokens o in
    let key := [VStr (name (GemmV2._quant_mode o)); VInt m;
                VInt (GemmV2._n o); VInt (GemmV2._k o)] in
    let args := [("M", m); ("N", GemmV2._n o); ("K", GemmV2._k o)] in
    Operation.get_lookup_key (Operation.Gemm o) kw = ok key
    ∧ ∀ (S : Type) (db_query : string → kwargs → Py S PerformanceResult.t)
        (est : Estimator) (s : S),
        OperationV2.estimator (GemmV2.base o) = Some est →
        index_get (OperationV2.exact_match_dict (GemmV2.base o)) key = None →
        Operation.query db_query (Operation.Gemm o) kw s
        = Outcome
            (p ← EstimatorMethods.predict est args;
             ok (PerformanceResult.new
                   (p.1 * OperationV2.scale_factor (GemmV2.base o))
                   (p.2 * OperationV2.scale_factor (GemmV2.base o))))
            s [EvPredict args].
Proof.
  intros o kw M HM Hs m key args.
  assert (getitem kw "M" = ok M) as HgetM by (unfold getitem; by rewrite HM).
  assert (floordiv M (GemmV2._scale_num_tokens o) = ok m) as Hdiv
    by (unfold floordiv; by rewrite decide_False).
  assert (GemmV2.get_lookup_key o kw = ok key) as Hkey
    by (unfold GemmV2.get_lookup_key; by rewrite HgetM, result_bind_ok, Hdiv).
  split; [exact Hkey|].
  intros S db_query est s Hest Hmiss. cbn [Operation.query].
  unfold GemmV2.query.
  rewrite Hkey, bind_lift_ok, Hmiss, Hest, HgetM, bind_lift_ok, Hdiv, bind_lift_ok.
  fold args. rewrite !bind_run. cbn [emit lift value final calls].
  destruct (EstimatorMethods.predict est args) as [e|p]; reflexivity.
Qed.

(** A matrix multiply with a fitted estimator and an empty index, called
    with [M = 32]: the estimator sees [(32, 1024, 512)]. *)
Lemma gemm_key_and_estimator_arguments_witness :
  let o := Fixture.gemm 1024 512 GEMMQuantMode_float16 2 ∅
             (Some (Fixture.nearest 4 9)) in
  Operation.get_lookup_key (Operation.Gemm o) [("M", 32)]
  = ok [VStr "float16"; VInt 32; VInt 1024; VInt 512]
  ∧ Operation.query (S:=unit) (λ _ _, raise RecursionError) (Operation.Gemm o)
      [("M", 32)] tt
    = Outcome (ok (PerformanceResult.new (4 * 2) (9 * 2))) tt
        [EvPredict [("M", 32); ("N", 1024); ("K", 512)]].
Proof.
  intros o.
  destruct (gemm_key_and_estimator_arguments o [("M", 32)] 32 eq_refl
              ltac:(discriminate)) as [Hkey Hquery].
  split; [exact Hkey|].
  exact (Hquery unit (λ _ _, raise RecursionError) (Fixture.nearest 4 9) tt
           eq_refl eq_refl).
Defined.

(** ** Estimators *)

(** A [fit] that raises leaves [_fitted] as it was. *)
Lemma fit_raises_keeps_fitted (sp : SciPy) (est est' : Estimator)
    (flat_matrix : option matrix) (e : exn) :
  EstimatorMethods.fit sp est flat_matrix = (throw e, est') →
  EstimatorMethods.fitted est' = EstimatorMethods.fitted est.
Proof.
  destruct est as [l|n]; cbn [EstimatorMethods.fit].
  - unfold LinearInterpolator.fit.
    destruct flat_matrix as [[|row a]|]; cbn [prod_map fst snd id]; try discriminate.
    repeat match goal with
           | |- context [match ?x with inl _ => _ | inr _ => _ end] =>
               destruct x; cbn [prod_map fst snd id]
           end;
      intros [= <- <-] || discriminate; reflexivity.
  - unfold NearestNeighbor.fit.
    destruct flat_matrix as [[|row a]|]; cbn [prod_map fst snd id]; try discriminate.
    repeat match goal with
           | |- context [match ?x with inl _ => _ | inr _ => _ end] =>
               destruct x; cbn [prod_map fst snd id]
           end;
      intros [= <- <-] || discriminate; reflexivity.
Qed.

(** A [fit] that returns on a non-empty table sets [_fitted]. *)
Lemma fit_returns_sets_fitted (sp : SciPy) (est est' : Estimator) (a : matrix) :
  a ≠ [] →
  EstimatorMethods.fit sp est (Some a) = (ok tt, est') →
  EstimatorMethods.fitted est' = true.
Proof.
  intros Ha. destruct est as [l|n]; cbn [EstimatorMethods.fit].
  - unfold LinearInterpolator.fit. destruct a as [|row a]; [done|].
    repeat match goal with
           | |- context [match ?x with inl _ => _ | inr _ => _ end] =>
               destruct x; cbn [prod_map fst snd id]
           end;
      intros [= <-] || discriminate; reflexivity.
  - unfold NearestNeighbor.fit. destruct a as [|row a]; [done|].
    repeat match goal with
           | |- context [match ?x with inl _ => _ | inr _ => _ end] =>
               destruct x; cbn [prod_map fst snd id]
           end;
      intros [= <-] || discriminate; reflexivity.
Qed.

Lemma predict_unfitted (est : Estimator) (kw : kwargs) :
  EstimatorMethods.fitted est = false →
  EstimatorMethods.predict est kw = throw (EstimatorMethods.not_fitted est).
Proof.
  destruct est as [l|n]; cbn; intros Hf.
  - unfold LinearInterpolator.predict. by rewrite Hf.
  - unfold NearestNeighbor.predict. by rewrite Hf.
Qed.

Lemma call_not_value_error {A B : Type} (f : option (A → string + B)) (x : A) (msg : string) :
  call f x ≠ throw (ValueError msg).
Proof. unfold call, scipy. destruct f as [g|]; [destruct (g x)|]; discriminate. Qed.

Lemma item_not_value_error (column : option (list float)) (idx : nat) (msg : string) :
  NearestNeighbor.item column idx ≠ throw (ValueError msg).
Proof.
  unfold NearestNeighbor.item. destruct column as [c|]; [|discriminate].
  destruct (c !! idx); discriminate.
Qed.

Lemma bind_not_value_error {A B : Type} (r : result A) (k : A → result B) (msg : string) :
  r ≠ throw (ValueError msg) →
  (∀ a, k a ≠ throw (ValueError msg)) →
  (r ≫= k) ≠ throw (ValueError msg).
Proof.
  destruct r as [e|a]; intros Hr Hk; [|apply Hk].
  intros Heq. apply Hr.
  unfold mbind, result_bind, rbind, throw in Heq. injection Heq as ->. reflexivity.
Qed.

Lemma predict_fitted (est : Estimator) (kw : kwargs) :
  EstimatorMethods.fitted est = true →
  EstimatorMethods.predict est kw ≠ throw (EstimatorMethods.not_fitted est).
Proof.
  destruct est as [l|n]; cbn; intros Hf.
  - unfold LinearInterpolator.predict, LinearInterpolator.not_fitted.
    rewrite Hf. cbn [negb].
    apply bind_not_value_error; [apply call_not_value_error|intros lat].
    apply bind_not_value_error; [apply call_not_value_error|intros en].
    destruct (PrimFloat.is_nan lat); [|discriminate].
    apply bind_not_value_error; [apply call_not_value_error|intros lat'].
    apply bind_not_value_error; [apply call_not_value_error|intros en'].
    discriminate.
  - unfold NearestNeighbor.predict, NearestNeighbor.not_fitted.
    rewrite Hf. cbn [negb].
    apply bind_not_value_error; [apply call_not_value_error|intros idx].
    apply bind_not_value_error; [apply item_not_value_error|intros lat].
    apply bind_not_value_error; [apply item_not_value_error|intros en].
    discriminate.
Qed.

Lemma fit_keeps_class (sp : SciPy) (est : Estimator) (t : option matrix) :
  class_name (EstimatorMethods.fit sp est t).2 = class_name est.
Proof. destruct est as [l|n]; cbn; by destruct (_ sp _ t). Qed.

Lemma fit_each_keeps_class (sp : SciPy) (tables : list (option matrix)) :
  ∀ est, class_name (fit_each sp est tables) = class_name est.
Proof.
  induction tables as [|t tables IH]; intros est; [reflexivity|].
  cbn [fit_each]. by rewrite IH, fit_keeps_class.
Qed.

Lemma not_fitted_message (est : Estimator) :
  EstimatorMethods.not_fitted est
  = ValueError (class_name est +:+ " has not been fitted yet.").
Proof. by destruct est. Qed.

(** No [fit] resets the flag. *)
Lemma fit_keeps_fitted (sp : SciPy) (est : Estimator) (t : option matrix) :
  EstimatorMethods.fitted est = true →
  EstimatorMethods.fitted (EstimatorMethods.fit sp est t).2 = true.
Proof.
  intros Hf. destruct (EstimatorMethods.fit sp est t) as [[e|[]] est'] eqn:Hfit.
  - cbn [snd]. by rewrite (fit_raises_keeps_fitted sp est est' t e Hfit).
  - cbn [snd]. destruct t as [[|row a]|].
    + assert (est' = est) as -> by (destruct est; cbn in Hfit; congruence). done.
    + by apply (fit_returns_sets_fitted sp est est' (row :: a)).
    + assert (est' = est) as -> by (destruct est; cbn in Hfit; congruence). done.
Qed.

Lemma fit_each_keeps_fitted (sp : SciPy) (tables : list (option matrix)) :
  ∀ est, EstimatorMethods.fitted est = true →
         EstimatorMethods.fitted (fit_each sp est tables) = true.
Proof.
  induction tables as [|t tables IH]; intros est Hf; [done|].
  cbn [fit_each]. by apply IH, fit_keeps_fitted.
Qed.

(** Until a [fit] succeeds the estimator stays unfit. *)
Lemma unfit_until_fit_succeeds (sp : SciPy) (tables : list (option matrix)) :
  ∀ est, EstimatorMethods.fitted est = false →
         none_succeeded sp est tables = true →
         EstimatorMethods.fitted (fit_each sp est tables) = false.
Proof.
  induction tables as [|t tables IH]; intros est Hf Hnone; [done|].
  cbn [fit_each none_succeeded] in *.
  apply andb_true_iff in Hnone as [Hthis Hrest]. apply negb_true_iff in Hthis.
  apply IH; [|done]. unfold fit_succeeded in Hthis.
  destruct (EstimatorMethods.fit sp est t) as [[e|[]] est'] eqn:Hfit; cbn [fst snd] in *.
  - by rewrite (fit_raises_keeps_fitted sp est est' t e Hfit).
  - destruct t as [[|row a]|]; [|rewrite Hfit in Hthis; discriminate|].
    + assert (est' = est) as -> by (destruct est; cbn in Hfit; congruence). done.
    + assert (est' = est) as -> by (destruct est; cbn in Hfit; congruence). done.
Qed.

(** C7: for both estimators, over any behaviour [sp] of SciPy.
    (1) A new estimator is unfit. (2) [fit] on an absent or empty table
    returns without raising and leaves the estimator as it was, so unfit if
    it was unfit. (3) On an unfit estimator, after any sequence of [fit]
    calls of which none succeeded (returned on a non-empty table),
    [predict] raises the NotFitted error, a [ValueError] saying "<class> has
    not been fitted yet.". (4) After a [fit] that returned on a non-empty
    table the estimator is fit and [predict] does not raise NotFitted, also
    after any later calls of [fit]. *)
Theorem estimator_fit_predict_contract :
  ∀ (sp : SciPy) (est : Estimator) (kw : kwargs),
    (EstimatorMethods.fitted (Linear LinearInterpolator.init) = false
     ∧ EstimatorMethods.fitted (Nearest NearestNeighbor.init) = false)
    ∧ (EstimatorMethods.fit sp est None = (ok tt, est)
       ∧ EstimatorMethods.fit sp est (Some []) = (ok tt, est))
    ∧ (∀ tables : list (option matrix),
         EstimatorMethods.fitted est = false →
         none_succeeded sp est tables = true →
         EstimatorMethods.predict (fit_each sp est tables) kw
         = throw (ValueError (class_name est +:+ " has not been fitted yet.")))
    ∧ (∀ (a : matrix) (est' : Estimator) (tables : list (option matrix)),
         a ≠ [] →
         EstimatorMethods.fit sp est (Some a) = (ok tt, est') →
         EstimatorMethods.fitted est' = true
         ∧ EstimatorMethods.predict (fit_each sp est' tables) kw
           ≠ throw (ValueError (class_name est +:+ " has not been fitted yet."))).
Proof.
  intros sp est kw. split; [by split|]. split; [by destruct est|]. split.
  - intros tables Hf Hnone.
    rewrite predict_unfitted by (by apply unfit_until_fit_succeeds).
    by rewrite not_fitted_message, fit_each_keeps_class.
  - intros a est' tables Ha Hfit.
    pose proof (fit_returns_sets_fitted sp est est' a Ha Hfit) as Hf.
    split; [done|].
    replace (class_name est) with (class_name (fit_each sp est' tables)).
    + rewrite <- not_fitted_message. by apply predict_fitted, fit_each_keeps_fitted.
    + rewrite fit_each_keeps_class.
      replace est' with (EstimatorMethods.fit sp est (Some a)).2 by (by rewrite Hfit).
      apply fit_keeps_class.
Qed.

(** As in [test_predict_before_fit_raises] and [test_fit_with_empty_data_skips],
    then a fit on the one-row table [[1, 2, 10, 50]]. *)
Lemma estimator_fit_predict_contract_witness :
  let fresh := Nearest NearestNeighbor.init in
  let kw := [("p1", 1); ("p2", 10)] in
  let a := [[1; 2; 10; 50]%float] in
  let est' := (EstimatorMethods.fit Fixture.scipy fresh (Some a)).2 in
  EstimatorMethods.fit Fixture.scipy fresh (Some []) = (ok tt, fresh)
  ∧ EstimatorMethods.predict (fit_each Fixture.scipy fresh [Some []; None]) kw
    = throw (ValueError "NearestNeighbor has not been fitted yet.")
  ∧ EstimatorMethods.fitted est' = true
  ∧ EstimatorMethods.predict (fit_each Fixture.scipy est' [Some []]) kw
    ≠ throw (ValueError "NearestNeighbor has not been fitted yet.").
Proof.
  intros fresh kw a est'.
  destruct (estimator_fit_predict_contract Fixture.scipy fresh kw)
    as (_ & [_ Hempty] & Hunfit & Hfit).
  split; [exact Hempty|].
  split; [exact (Hunfit [Some []; None] eq_refl eq_refl)|].
  apply (Hfit a est' [Some []]); [discriminate|reflexivity].
Defined.

(** ** Weights *)

(** C8: [get_weights] returns 0.0 for every operation whose class does not
    override it (all but the matrix multiply, the mixture-of-experts compute
    and the embedding), whatever the keyword arguments; for a matrix
    multiply it returns the int [N * K * memory(quant_mode)] times the float
    scale factor; with N = 1024, K = 512, a 2-byte element and scale factor
    2.0 that is 2097152.0. *)
Theorem get_weights_default_and_gemm :
  ∀ (op : Operation.t) (o : GemmV2.t) (kw : kwargs),
    (owns_weights op = false → Operation.get_weights op kw = ok 0%float)
    ∧ Operation.get_weights (Operation.Gemm o) kw
      = int_mul_float (GemmV2._n o * GemmV2._k o * memory (GemmV2._quant_mode o))
                      (OperationV2.scale_factor (GemmV2.base o))
    ∧ Operation.get_weights
        (Operation.Gemm (Fixture.gemm 1024 512 GEMMQuantMode_float16 2 ∅ None)) kw
      = ok 2097152%float
    ∧ (1024 * 512 * 2 = 1048576
       ∧ float_of_int 1048576 = ok 1048576%float
       ∧ (1048576 * 2 = 2097152)%float).
Proof.
  intros op o kw. split; [by destruct op|]. split; [reflexivity|].
  split; [vm_compute; reflexivity|]. split; [reflexivity|].
  split; vm_compute; reflexivity.
Qed.

(** As in [test_get_weights_default] and [test_gemm_v2_weights]. *)
Lemma get_weights_default_and_gemm_witness :
  Operation.get_weights (Fixture.stub 10 50) [] = ok 0%float
  ∧ Operation.get_weights
      (Operation.Gemm (Fixture.gemm 1024 512 GEMMQuantMode_float16 2 ∅ None)) []
    = ok 2097152%float.
Proof.
  destruct (get_weights_default_and_gemm (Fixture.stub 10 50)
              (Fixture.gemm 1024 512 GEMMQuantMode_float16 2 ∅ None) [])
    as (Hdefault & _ & Hgemm & _).
  split; [exact (Hdefault eq_refl)|exact Hgemm].
Defined.

(** ** Registration and routing *)

Lemma register_operation_run (name : string) (op : Operation.t) (db : DatabaseV2.t) :
  run (DatabaseV2.register_operation name op) db
  = Outcome (ok tt)
      (DatabaseV2.update_operations (λ d, Dict.set d name op) db) [].
Proof. reflexivity. Qed.

Lemma register_all_app (regs regs' : list (string * Operation.t)) (db : DatabaseV2.t) :
  final (run (register_all (regs ++ regs')) db)
  = final (run (register_all regs') (final (run (register_all regs) db))).
Proof.
  revert db. induction regs as [|[name op] regs IH]; intros db; [reflexivity|].
  unfold register_all, run in *. cbn [app DatabaseV2.register_operations].
  rewrite !bind_run. cbn [DatabaseV2.register_operation modify value final calls].
  unfold ok. apply IH.
Qed.

Lemma register_all_get_other (regs : list (string * Operation.t)) (name : string)
    (db : DatabaseV2.t) :
  name ∉ regs.*1 →
  Dict.get (DatabaseV2._operations (final (run (register_all regs) db))) name
  = Dict.get (DatabaseV2._operations db) name.
Proof.
  revert db. induction regs as [|[name' op] regs IH]; intros db Hnot; [reflexivity|].
  cbn in Hnot. apply not_elem_of_cons in Hnot as [Hne Hnot].
  unfold register_all, run in *. cbn [DatabaseV2.register_operations].
  rewrite bind_run. cbn [DatabaseV2.register_operation modify value final calls].
  unfold ok. cbn [final]. rewrite IH by done. cbn. by apply dict_get_set_ne.
Qed.

(** Every [query] leaves the orchestrator as it found it. *)
Lemma loop_read_only {S : Type} (db_query : string → kwargs → Py S PerformanceResult.t)
    (subs : list string) (kw : kwargs) (total : PerformanceResult.t) :
  (∀ sub kw', read_only (db_query sub kw')) →
  read_only (StubComposite.loop db_query subs kw total).
Proof.
  intros Hq. revert total. induction subs as [|sub subs IH]; intros total;
    cbn [StubComposite.loop]; [apply read_only_ret|].
  apply read_only_bind; [apply Hq|intros r; apply IH].
Qed.

Lemma operation_query_read_only {S : Type}
    (db_query : string → kwargs → Py S PerformanceResult.t)
    (op : Operation.t) (kw : kwargs) :
  (∀ sub kw', read_only (db_query sub kw')) →
  read_only (Operation.query db_query op kw).
Proof.
  intros Hq. destruct op; cbn [Operation.query]; try apply base_query_read_only.
  - unfold GemmV2.query. read_only_step; [read_only_step|].
    destruct (index_get _ _); [read_only_step|].
    destruct (OperationV2.estimator _); repeat read_only_step.
  - unfold CustomAllReduceV2.query. case_decide; [read_only_step|].
    apply base_query_read_only.
  - unfold P2PV2.query. case_decide; [read_only_step|].
    apply base_query_read_only.
  - unfold MoEDispatchV2.query. read_only_step.
  - unfold StubComposite.query. read_only_step; [by apply loop_read_only|].
    read_only_step.
Qed.

Lemma database_query_read_only (depth : nat) (op_name : string) (kw : kwargs) :
  read_only (DatabaseV2.query depth op_name kw).
Proof.
  revert op_name kw. induction depth as [|depth IH]; intros op_name kw;
    cbn [DatabaseV2.query]; [apply read_only_raise|].
  apply read_only_bind; [apply read_only_gets|].
  intros [op|]; [by apply operation_query_read_only|].
  apply read_only_bind; [apply read_only_gets|intros; apply read_only_raise].
Qed.

(** C9: registering [op2] under a name already bound (to [op1], by any
    earlier registration) replaces the operation entirely. After the two
    registrations [get_operation] returns [op2]; the database is the one
    that registering [op2] alone produces, so nothing of [op1] is left under
    the name; and [query] on the name is the [query] of [op2]. In any
    sequence of registrations, the last one for a name is the one
    [get_operation] returns. *)
Theorem last_registration_wins :
  ∀ (db : DatabaseV2.t) (name : string) (op1 op2 : Operation.t),
    let db1 := final (run (DatabaseV2.register_operation name op1) db) in
    let db2 := final (run (DatabaseV2.register_operation name op2) db1) in
    value (run (DatabaseV2.get_operation name) db2) = ok (Some op2)
    ∧ db2 = final (run (DatabaseV2.register_operation name op2) db)
    ∧ (∀ (depth : nat) (kw : kwargs),
         run (DatabaseV2.query (S depth) name kw) db2
         = run (Operation.query (DatabaseV2.query depth) op2 kw) db2)
    ∧ (∀ regs regs' : list (string * Operation.t),
         name ∉ regs'.*1 →
         value (run (DatabaseV2.get_operation name)
                  (final (run (register_all (regs ++ (name, op2) :: regs')) db)))
         = ok (Some op2)).
Proof.
  intros db name op1 op2 db1 db2.
  assert (Dict.get (DatabaseV2._operations db2) name = Some op2) as Hget
    by apply dict_get_set_eq.
  split; [cbn; by rewrite dict_get_set_eq|]. split.
  - unfold db2, db1. rewrite !register_operation_run. cbn [final].
    unfold DatabaseV2.update_operations. cbn. by rewrite dict_set_set.
  - split; [intros; by apply database_query_registered|].
    intros regs regs' Hnot.
    rewrite register_all_app.
    change ((name, op2) :: regs') with ([(name, op2)] ++ regs').
    rewrite register_all_app.
    cbn [DatabaseV2.get_operation gets run value]. f_equal.
    rewrite register_all_get_other by done.
    apply dict_get_set_eq.
Qed.

(** As in [test_overwrite_existing_operation]: the second registration of
    "op" answers, also when other names are registered afterwards. *)
Lemma last_registration_wins_witness :
  let db := DatabaseV2.init "trtllm" SILICON None in
  let op1 := Fixture.stub 1 5 in
  let op2 := Fixture.stub 9 5 in
  value (run (DatabaseV2.get_operation "op")
           (final (run (register_all ([("op", op1)] ++ ("op", op2) :: [("b", op1)])) db)))
  = ok (Some op2).
Proof.
  intros db op1 op2.
  destruct (last_registration_wins db "op" op1 op2) as (_ & _ & _ & Hseq).
  apply (Hseq [("op", op1)] [("b", op1)]).
  cbn. apply not_elem_of_cons. split; [discriminate|apply not_elem_of_nil].
Defined.

(** C10: for every name bound to an operation and every keyword arguments,
    [DatabaseV2.query] returns exactly what the operation's own [query]
    returns on the same arguments (value, trace of [predict] calls and
    final state), and leaves the database (registry, mode, backend and
    system specification) as it was. *)
Theorem database_query_is_operation_query :
  ∀ (depth : nat) (db : DatabaseV2.t) (op_name : string) (op : Operation.t)
    (kw : kwargs),
    value (run (DatabaseV2.get_operation op_name) db) = ok (Some op) →
    let r := run (DatabaseV2.query (S depth) op_name kw) db in
    r = run (Operation.query (DatabaseV2.query depth) op kw) db
    ∧ final r = db
    ∧ DatabaseV2._operations (final r) = DatabaseV2._operations db
    ∧ DatabaseV2.mode (final r) = DatabaseV2.mode db
    ∧ DatabaseV2.backend (final r) = DatabaseV2.backend db
    ∧ DatabaseV2.system_spec (final r) = DatabaseV2.system_spec db.
Proof.
  intros depth db op_name op kw Hop r.
  assert (final r = db) as Hfinal by apply database_query_read_only.
  split; [|by rewrite !Hfinal].
  apply database_query_registered. cbn in Hop. by injection Hop.
Qed.

(** As in [test_register_and_query]: a registered [_DummyOp(7.0, 35.0)]. *)
Lemma database_query_is_operation_query_witness :
  let op := Operation.TestDummy
              {| DummyOp.base := Fixture.fields 1 (DummyOp.load_data 7 35).1 None;
                 DummyOp._lat := 7; DummyOp._eng := 35 |} in
  let db := Fixture.database [("my_op", op)] in
  let r := run (DatabaseV2.query 1 "my_op" [("x", 42)]) db in
  r = Outcome (ok (PerformanceResult.new 7 35)) db [] ∧ final r = db.
Proof.
  intros op db r.
  destruct (database_query_is_operation_query 0 db "my_op" op [("x", 42)] eq_refl)
    as (Heq & Hfinal & _).
  split; [|exact Hfinal].
  etransitivity; [exact Heq|]. vm_compute. reflexivity.
Defined.

(** * Further properties of the code *)

(** ** The registry as a dictionary *)

Lemma dict_remove_absent {V : Type} (d : Dict.t V) (key : string) :
  Dict.get d key = None → Dict.remove d key = d.
Proof.
  induction d as [|[k v] d IH]; simpl; [done|].
  destruct (decide (k = key)); [done|]. intros H. by rewrite IH.
Qed.

Lemma dict_get_remove_ne {V : Type} (d : Dict.t V) (key key' : string) :
  key ≠ key' → Dict.get (Dict.remove d key) key' = Dict.get d key'.
Proof.
  intros Hne. induction d as [|[k v] d IH]; simpl; [done|].
  destruct (decide (k = key)) as [->|Hk]; simpl.
  - by rewrite decide_False.
  - destruct (decide (k = key')); [done|apply IH].
Qed.

Lemma dict_get_remove_eq {V : Type} (d : Dict.t V) (key : string) :
  NoDup (Dict.keys d) → Dict.get (Dict.remove d key) key = None.
Proof.
  unfold Dict.keys. induction d as [|[k v] d IH]; simpl; [done|].
  intros [Hnotin Hnodup]%NoDup_cons.
  destruct (decide (k = key)) as [->|Hk]; simpl.
  - apply eq_None_not_Some. by rewrite dict_get_keys.
  - rewrite decide_False by done. by apply IH.
Qed.

Lemma dict_remove_set_absent {V : Type} (d : Dict.t V) (key : string) (v : V) :
  Dict.get d key = None → Dict.remove (Dict.set d key v) key = d.
Proof.
  induction d as [|[k v'] d IH]; simpl.
  - by rewrite decide_True.
  - destruct (decide (k = key)) as [->|Hk]; [done|]. simpl.
    rewrite decide_False by done. intros H. by rewrite IH.
Qed.

Lemma dict_keys_set_absent {V : Type} (d : Dict.t V) (key : string) (v : V) :
  Dict.get d key = None → Dict.keys (Dict.set d key v) = Dict.keys d ++ [key].
Proof.
  unfold Dict.keys. induction d as [|[k v'] d IH]; simpl; [done|].
  destruct (decide (k = key)) as [->|Hk]; [done|]. simpl.
  intros H. f_equal. by apply IH.
Qed.

Lemma dict_keys_set_elem {V : Type} (d : Dict.t V) (key key' : string) (v : V) :
  key' ∈ Dict.keys (Dict.set d key v) ↔ key' = key ∨ key' ∈ Dict.keys d.
Proof.
  rewrite <- !dict_get_keys. destruct (decide (key = key')) as [->|Hne].
  - rewrite dict_get_set_eq. split; [by left|by eauto].
  - rewrite dict_get_set_ne by done. split; [by right|]. intros [?|?]; [congruence|done].
Qed.

Lemma dict_keys_set_nodup {V : Type} (d : Dict.t V) (key : string) (v : V) :
  NoDup (Dict.keys d) → NoDup (Dict.keys (Dict.set d key v)).
Proof.
  intros Hnd. destruct (Dict.get d key) as [v'|] eqn:Hget.
  - by rewrite dict_keys_set by done.
  - rewrite dict_keys_set_absent by done.
    apply NoDup_app. split; [done|]. split; [|apply NoDup_singleton].
    intros x Hx ->%list_elem_of_singleton.
    apply dict_get_keys in Hx as [? Hx]. congruence.
Qed.

Lemma dict_keys_remove_subseteq {V : Type} (d : Dict.t V) (key : string) :
  Dict.keys (Dict.remove d key) ⊆ Dict.keys d.
Proof.
  unfold Dict.keys. induction d as [|[k v] d IH]; simpl; [done|].
  destruct (decide (k = key)); simpl.
  - intros x Hx. apply elem_of_cons. by right.
  - intros x [->|Hx]%elem_of_cons; apply elem_of_cons; [by left|].
    right. by apply IH.
Qed.

Lemma dict_keys_remove_nodup {V : Type} (d : Dict.t V) (key : string) :
  NoDup (Dict.keys d) → NoDup (Dict.keys (Dict.remove d key)).
Proof.
  unfold Dict.keys. induction d as [|[k v] d IH]; simpl; [done|].
  intros [Hnotin Hnodup]%NoDup_cons.
  destruct (decide (k = key)); simpl; [done|].
  apply NoDup_cons. split; [|by apply IH].
  intros Hin. apply Hnotin. by apply (dict_keys_remove_subseteq d key).
Qed.

Lemma unregister_operation_run (name : string) (db : DatabaseV2.t) :
  run (DatabaseV2.unregister_operation name) db
  = Outcome (ok (Dict.get (DatabaseV2._operations db) name))
      (DatabaseV2.update_operations (λ d, Dict.remove d name) db) [].
Proof. reflexivity. Qed.

Lemma update_operations_id (db : DatabaseV2.t) (f : Dict.t Operation.t → Dict.t Operation.t) :
  f (DatabaseV2._operations db) = DatabaseV2._operations db →
  DatabaseV2.update_operations f db = db.
Proof. intros H. destruct db. unfold DatabaseV2.update_operations. cbn in *. by rewrite H. Qed.

(** X1: [unregister_operation] never raises. It returns the operation bound
    to the name, or [None] for an unknown name, in which case the database
    is left as it was. Every other name keeps its binding, and (names being
    listed once, as in a Python dict) the name is unbound afterwards. *)
Theorem unregister_operation_removes_binding :
  ∀ (db : DatabaseV2.t) (name : string),
    NoDup (Dict.keys (DatabaseV2._operations db)) →
    let r := run (DatabaseV2.unregister_operation name) db in
    value r = value (run (DatabaseV2.get_operation name) db)
    ∧ value (run (DatabaseV2.has_operation name) (final r)) = ok false
    ∧ (∀ other : string,
         other ≠ name →
         value (run (DatabaseV2.get_operation other) (final r))
         = value (run (DatabaseV2.get_operation other) db))
    ∧ (value (run (DatabaseV2.has_operation name) db) = ok false →
       r = Outcome (ok None) db []).
Proof.
  intros db name Hnd r. unfold r. rewrite unregister_operation_run.
  cbn [value final]. split; [reflexivity|]. split.
  - cbn. f_equal. apply dict_contains_false. by apply dict_get_remove_eq.
  - split.
    + intros other Hne. cbn. f_equal. by apply dict_get_remove_ne.
    + intros Habs. cbn in Habs.
      assert (Dict.get (DatabaseV2._operations db) name = None) as Hget
        by (apply dict_contains_false; by injection Habs).
      rewrite Hget. f_equal. apply update_operations_id. by apply dict_remove_absent.
Qed.

(** As in [test_unregister_operation] and
    [test_unregister_nonexistent_returns_none]. *)
Lemma unregister_operation_removes_binding_witness :
  let db := Fixture.database [("op", Fixture.stub 5 25); ("b", Fixture.stub 3 15)] in
  value (run (DatabaseV2.unregister_operation "op") db) = ok (Some (Fixture.stub 5 25))
  ∧ value (run (DatabaseV2.has_operation "op")
             (final (run (DatabaseV2.unregister_operation "op") db))) = ok false
  ∧ run (DatabaseV2.unregister_operation "nope") db = Outcome (ok None) db [].
Proof.
  intros db.
  assert (NoDup (Dict.keys (DatabaseV2._operations db))) as Hnd.
  { apply (bool_decide_unpack _). vm_compute. exact I. }
  destruct (unregister_operation_removes_binding db "op" Hnd) as (Hret & Hgone & _).
  destruct (unregister_operation_removes_binding db "nope" Hnd) as (_ & _ & _ & Hnone).
  split; [exact Hret|]. split; [exact Hgone|]. apply Hnone. reflexivity.
Defined.

(** X2: registering an operation under an unbound name and unregistering
    it again gives the operation back and restores the database, order of
    the other names included. *)
Theorem register_unregister_round_trip :
  ∀ (db : DatabaseV2.t) (name : string) (op : Operation.t),
    value (run (DatabaseV2.has_operation name) db) = ok false →
    run (_ ← DatabaseV2.register_operation name op;
         DatabaseV2.unregister_operation name) db
    = Outcome (ok (Some op)) db [].
Proof.
  intros db name op Habs. cbn in Habs.
  assert (Dict.get (DatabaseV2._operations db) name = None) as Hget
    by (apply dict_contains_false; by injection Habs).
  unfold run. rewrite bind_run.
  pose proof (register_operation_run name op db) as Hreg. unfold run in Hreg.
  rewrite Hreg. cbn [value final calls]. unfold ok.
  pose proof (unregister_operation_run name
                (DatabaseV2.update_operations (λ d, Dict.set d name op) db)) as Hun.
  unfold run in Hun. rewrite Hun. cbn [value final calls app].
  f_equal.
  - cbn. by rewrite dict_get_set_eq.
  - destruct db. unfold DatabaseV2.update_operations. cbn in *.
    by rewrite dict_remove_set_absent.
Qed.

Lemma register_unregister_round_trip_witness :
  let db := Fixture.database [("a", Fixture.stub 5 25)] in
  run (_ ← DatabaseV2.register_operation "op" (Fixture.stub 3 15);
       DatabaseV2.unregister_operation "op") db
  = Outcome (ok (Some (Fixture.stub 3 15))) db [].
Proof.
  intros db. apply (register_unregister_round_trip db "op" (Fixture.stub 3 15)).
  reflexivity.
Defined.

(** X3: [registered_operations] keeps the order of first registration: a
    new name goes to the end of the list, and registering a bound name
    again leaves the list as it was. *)
Theorem registration_order :
  ∀ (db : DatabaseV2.t) (name : string) (op : Operation.t),
    let names := Dict.keys (DatabaseV2._operations db) in
    let db' := final (run (DatabaseV2.register_operation name op) db) in
    value (run DatabaseV2.registered_operations db') 
    = ok (if Dict.contains (DatabaseV2._operations db) name
          then names else names ++ [name]).
Proof.
  intros db name op names db'. cbn. f_equal.
  destruct (Dict.contains _ name) eqn:Hc.
  - apply dict_keys_set. by apply dict_contains_get.
  - apply dict_keys_set_absent. by apply dict_contains_false.
Qed.

(** X4: [clear] empties the registry and nothing else: afterwards no name
    is registered, every query raises the unregistered-operation error with
    an empty list of names, and backend, mode and system specification are
    as before. *)
Theorem clear_empties_registry :
  ∀ (db : DatabaseV2.t) (op_name : string) (kw : kwargs) (depth : nat),
    let db' := final (run DatabaseV2.clear db) in
    value (run DatabaseV2.clear db) = ok tt
    ∧ value (run DatabaseV2.registered_operations db') = ok []
    ∧ value (run (DatabaseV2.has_operation op_name) db') = ok false
    ∧ value (run (DatabaseV2.query (S depth) op_name kw) db')
      = throw (NotImplementedError
                 ("Operation '" +:+ op_name +:+ "' is not registered. Available: []"))
    ∧ DatabaseV2.backend db' = DatabaseV2.backend db
    ∧ DatabaseV2.mode db' = DatabaseV2.mode db
    ∧ DatabaseV2.system_spec db' = DatabaseV2.system_spec db.
Proof.
  intros db op_name kw depth db'. repeat split.
Qed.

(** ** Sessions *)

Lemma register_all_keeps_config (regs : list (string * Operation.t)) (db : DatabaseV2.t) :
  let db' := final (run (register_all regs) db) in
  DatabaseV2.backend db' = DatabaseV2.backend db
  ∧ DatabaseV2.mode db' = DatabaseV2.mode db
  ∧ DatabaseV2.system_spec db' = DatabaseV2.system_spec db.
Proof.
  revert db. induction regs as [|[name op] regs IH]; intros db; [done|].
  unfold register_all, run in *. cbn [DatabaseV2.register_operations].
  rewrite bind_run. cbn [DatabaseV2.register_operation modify value final calls].
  unfold ok. cbn [final].
  destruct (IH (DatabaseV2.update_operations (λ d, Dict.set d name op) db))
    as (-> & -> & ->). done.
Qed.

Lemma register_all_nodup (regs : list (string * Operation.t)) (db : DatabaseV2.t) :
  NoDup (Dict.keys (DatabaseV2._operations db)) →
  NoDup (Dict.keys (DatabaseV2._operations (final (run (register_all regs) db)))).
Proof.
  revert db. induction regs as [|[name op] regs IH]; intros db Hnd; [done|].
  unfold register_all, run in *. cbn [DatabaseV2.register_operations].
  rewrite bind_run. cbn [DatabaseV2.register_operation modify value final calls].
  unfold ok. cbn [final]. apply IH. cbn. by apply dict_keys_set_nodup.
Qed.

(** X5: [register_operations] on a mapping is the registration of its
    items in order: afterwards every name of the mapping is bound to the
    mapping's operation, and every other name keeps its binding. *)
Theorem register_operations_binds_each :
  ∀ (db : DatabaseV2.t) (ops : Dict.t Operation.t),
    NoDup (Dict.keys ops) →
    let db' := final (run (DatabaseV2.register_operations ops) db) in
    db' = foldl (λ d item, final (run (DatabaseV2.register_operation item.1 item.2) d))
            db ops
    ∧ (∀ (name : string) (op : Operation.t),
         (name, op) ∈ ops →
         value (run (DatabaseV2.get_operation name) db') = ok (Some op))
    ∧ (∀ name : string,
         name ∉ Dict.keys ops →
         value (run (DatabaseV2.get_operation name) db')
         = value (run (DatabaseV2.get_operation name) db)).
Proof.
  intros db ops Hnd db'. split; [|split].
  - unfold db'. clear. revert db.
    induction ops as [|[name op] ops IH]; intros db; [done|].
    unfold run in *. cbn [DatabaseV2.register_operations foldl fst snd].
    rewrite bind_run. cbn [DatabaseV2.register_operation modify value final calls].
    unfold ok. cbn [final]. apply IH.
  - intros name op Hin.
    apply list_elem_of_split in Hin as (pre & post & ->).
    assert (name ∉ post.*1) as Hnot.
    { unfold Dict.keys in Hnd. rewrite fmap_app, fmap_cons in Hnd.
      apply NoDup_app in Hnd as (_ & _ & Hnd). by apply NoDup_cons in Hnd as [? _]. }
    unfold db'.
    change (DatabaseV2.register_operations (pre ++ (name, op) :: post))
      with (register_all (pre ++ [(name, op)] ++ post)).
    rewrite !register_all_app.
    cbn [DatabaseV2.get_operation gets run value]. f_equal.
    rewrite register_all_get_other by done. apply dict_get_set_eq.
  - intros name Hnot. cbn [DatabaseV2.get_operation gets run value]. f_equal.
    by apply register_all_get_other.
Qed.

(** As in [test_register_operations_bulk]. *)
Lemma register_operations_binds_each_witness :
  let db := DatabaseV2.init "trtllm" SILICON None in
  let ops := [("x", Fixture.stub 5 25); ("y", Fixture.stub 3 15)] in
  value (run (DatabaseV2.get_operation "y")
           (final (run (DatabaseV2.register_operations ops) db)))
  = ok (Some (Fixture.stub 3 15)).
Proof.
  intros db ops.
  assert (NoDup (Dict.keys ops)) as Hnd.
  { apply (bool_decide_unpack _). vm_compute. exact I. }
  destruct (register_operations_binds_each db ops Hnd) as (_ & Hbound & _).
  apply Hbound. apply elem_of_cons. right. apply elem_of_cons. by left.
Defined.

Lemma after_invariant (c : command) (db : DatabaseV2.t) :
  NoDup (Dict.keys (DatabaseV2._operations db)) →
  NoDup (Dict.keys (DatabaseV2._operations (after c db)))
  ∧ DatabaseV2.backend (after c db) = DatabaseV2.backend db
  ∧ DatabaseV2.mode (after c db) = DatabaseV2.mode db
  ∧ DatabaseV2.system_spec (after c db) = DatabaseV2.system_spec db.
Proof.
  intros Hnd. destruct c as [name op|ops|name| |depth op_name kw]; cbn [after].
  - split; [|done]. cbn. by apply dict_keys_set_nodup.
  - split; [by apply (register_all_nodup ops)|apply (register_all_keeps_config ops)].
  - split; [|done]. cbn. by apply dict_keys_remove_nodup.
  - split; [|done]. cbn. apply NoDup_nil_2.
  - unfold run. by rewrite database_query_read_only.
Qed.

Lemma calls_invariant (cs : list command) :
  ∀ db : DatabaseV2.t,
    NoDup (Dict.keys (DatabaseV2._operations db)) →
    let db' := foldl (λ db c, after c db) db cs in
    NoDup (Dict.keys (DatabaseV2._operations db'))
    ∧ DatabaseV2.backend db' = DatabaseV2.backend db
    ∧ DatabaseV2.mode db' = DatabaseV2.mode db
    ∧ DatabaseV2.system_spec db' = DatabaseV2.system_spec db.
Proof.
  induction cs as [|c cs IH]; intros db Hnd; [done|]. cbn [foldl].
  destruct (after_invariant c db Hnd) as (Hnd' & <- & <- & <-).
  by apply IH.
Qed.

(** X6: in every session (any calls of [register_operation],
    [register_operations], [unregister_operation], [clear] and [query], in
    any order, on a new database) the registry lists no name twice, a name
    is listed exactly when [has_operation] holds, and backend, mode and
    system specification stay what the constructor was given. *)
Theorem session_invariant :
  ∀ (backend : string) (mode : DatabaseMode) (system_spec : option (Dict.t string))
    (cs : list command) (name : string),
    let db := session backend mode system_spec cs in
    NoDup (Dict.keys (DatabaseV2._operations db))
    ∧ (name ∈ Dict.keys (DatabaseV2._operations db)
       ↔ value (run (DatabaseV2.has_operation name) db) = ok true)
    ∧ DatabaseV2.backend db = backend
    ∧ DatabaseV2.mode db = mode
    ∧ DatabaseV2.system_spec db = default [] system_spec.
Proof.
  intros backend mode system_spec cs name db.
  destruct (calls_invariant cs (DatabaseV2.init backend mode system_spec))
    as (Hnd & Hb & Hm & Hs); [apply NoDup_nil_2|].
  split; [exact Hnd|]. split; [|by split].
  rewrite <- dict_get_keys, <- dict_contains_get. cbn.
  split; [by intros ->|by intros [= ->]].
Qed.

(** ** Lookup keys and the keyword arguments *)

Lemma getitem_present (kw : kwargs) (name : string) :
  is_Some (kwargs_lookup kw name) → ∃ v, getitem kw name = ok v.
Proof. intros [v Hv]. exists v. unfold getitem. by rewrite Hv. Qed.

Lemma getitem_missing (kw : kwargs) (name : string) :
  kwargs_lookup kw name = None → getitem kw name = throw (KeyError name).
Proof. intros H. unfold getitem. by rewrite H. Qed.

Lemma floordiv_zero (a : Z) : floordiv a 0 = throw ZeroDivisionError.
Proof. reflexivity. Qed.

Lemma floordiv_nonzero (a b : Z) : b ≠ 0 → floordiv a b = ok (a / b).
Proof. intros H. unfold floordiv. by rewrite decide_False. Qed.

Ltac split_lookups H :=
  repeat match type of H with
         | context [match kwargs_lookup ?kw ?n with _ => _ end] =>
             let E := fresh "E" in destruct (kwargs_lookup kw n) eqn:E
         end.

Ltac use_lookups :=
  unfold getitem;
  repeat match goal with
         | E : kwargs_lookup ?kw ?n = _ |- context [kwargs_lookup ?kw ?n] => rewrite E
         end.

Ltac unfold_keys :=
  cbn [Operation.get_lookup_key];
  unfold GemmV2.get_lookup_key, ContextAttentionV2.get_lookup_key,
    GenerationAttentionV2.get_lookup_key, ContextMLAV2.get_lookup_key,
    GenerationMLAV2.get_lookup_key, MLABmmV2.get_lookup_key,
    NcclV2.get_lookup_key, CustomAllReduceV2.get_lookup_key,
    P2PV2.get_lookup_key, MoEV2.get_lookup_key, ElementWiseV2.get_lookup_key,
    EmbeddingV2.get_lookup_key, CompositeOperationV2.get_lookup_key,
    StubOperation.get_lookup_key, DummyOp.get_lookup_key.

(** X7: what [get_lookup_key] needs. Each class reads a fixed list of
    keyword arguments with [kwargs[name]]; when one is not passed, the first
    such name is raised as a [KeyError]. When all are passed, a matrix
    multiply or element-wise operation whose token divisor is zero raises
    [ZeroDivisionError]; otherwise the key is returned, with the number of
    fields of the class (the test stub apart, whose key has one field per
    argument). *)
Theorem lookup_key_requirements :
  ∀ (op : Operation.t) (kw : kwargs),
    (∀ missing : string,
       first_missing kw (required op) = Some missing →
       Operation.get_lookup_key op kw = throw (KeyError missing))
    ∧ (first_missing kw (required op) = None →
       token_divisor op = Some 0 →
       Operation.get_lookup_key op kw = throw ZeroDivisionError)
    ∧ (first_missing kw (required op) = None →
       token_divisor op ≠ Some 0 →
       ∃ key : lookup_key,
         Operation.get_lookup_key op kw = ok key
         ∧ length key = default (length kw) (arity op)).
Proof.
  intros op kw. split; [|split].
  - intros missing Hm.
    destruct op; cbn [first_missing required] in Hm; split_lookups Hm;
      try discriminate; injection Hm as <-; unfold_keys; use_lookups; reflexivity.
  - intros Hm Hz.
    destruct op; cbn [token_divisor] in Hz; try discriminate; injection Hz as Hz;
      cbn [first_missing required] in Hm; split_lookups Hm; try discriminate;
      unfold_keys; use_lookups; by rewrite result_bind_ok, Hz, floordiv_zero.
  - intros Hm Hz.
    destruct op; cbn [first_missing required] in Hm; split_lookups Hm;
      try discriminate; unfold_keys; use_lookups; rewrite ?result_bind_ok;
      try (rewrite floordiv_nonzero by (intros Hd; apply Hz; cbn; by rewrite Hd);
           rewrite result_bind_ok);
      (eexists; split; [reflexivity|]); try reflexivity.
    cbn [arity default]. rewrite length_fmap.
    rewrite (Permutation_length (merge_sort_Permutation Z.le (values kw))).
    unfold values. by rewrite length_fmap.
Qed.

(** A matrix multiply called without [M], with a zero divisor, and well. *)
Lemma lookup_key_requirements_witness :
  let gemm snt := Operation.Gemm
                    {| GemmV2.base := Fixture.fields 1 ∅ None; GemmV2._n := 1024;
                       GemmV2._k := 512; GemmV2._quant_mode := GEMMQuantMode_float16;
                       GemmV2._scale_num_tokens := snt;
                       GemmV2._low_precision_input := false |} in
  Operation.get_lookup_key (gemm 1) [("N", 32)] = throw (KeyError "M")
  ∧ Operation.get_lookup_key (gemm 0) [("M", 32)] = throw ZeroDivisionError
  ∧ ∃ key : lookup_key,
      Operation.get_lookup_key (gemm 2) [("M", 32); ("unused", 7)] = ok key
      ∧ length key = 4%nat.
Proof.
  intros gemm.
  destruct (lookup_key_requirements (gemm 1) [("N", 32)]) as (Hmissing & _ & _).
  destruct (lookup_key_requirements (gemm 0) [("M", 32)]) as (_ & Hzero & _).
  destruct (lookup_key_requirements (gemm 2) [("M", 32); ("unused", 7)]) as (_ & _ & Hok).
  split; [exact (Hmissing "M" eq_refl)|]. split; [exact (Hzero eq_refl eq_refl)|].
  apply Hok; [reflexivity|discriminate].
Defined.

(** ** The query paths *)

Lemma base_query_key_error {S : Type} (glk : kwargs → result lookup_key)
    (self : OperationV2.t) (kw : kwargs) (e : exn) (s : S) :
  glk kw = throw e →
  OperationV2.query glk self kw s = Outcome (throw e) s [].
Proof. intros Hk. unfold OperationV2.query. by rewrite Hk. Qed.

Lemma base_query_fallback {S : Type} (glk : kwargs → result lookup_key)
    (self : OperationV2.t) (kw : kwargs) (key : lookup_key) (est : Estimator) (s : S) :
  glk kw = ok key →
  index_get (OperationV2.exact_match_dict self) key = None →
  OperationV2.estimator self = Some est →
  OperationV2.query glk self kw s
  = Outcome (p ← EstimatorMethods.predict est kw; ok (OperationV2.scaled self p.1 p.2))
      s [EvPredict kw].
Proof.
  intros Hk Hi He. unfold OperationV2.query. rewrite Hk, bind_lift_ok, Hi, He.
  rewrite !bind_run. cbn [emit lift value final calls].
  destruct (EstimatorMethods.predict est kw) as [e|p]; reflexivity.
Qed.

(** X8: when the lookup key cannot be computed (a missing keyword
    argument, a zero divisor), [query] of an operation that is neither a
    composite nor short-circuited raises that same exception, without
    calling [predict] and without touching the orchestrator. *)
Theorem query_raises_key_error :
  ∀ (S : Type) (db_query : string → kwargs → Py S PerformanceResult.t)
    (op : Operation.t) (kw : kwargs) (e : exn) (s : S),
    is_composite op = false →
    short_circuits op = false →
    Operation.get_lookup_key op kw = throw e →
    Operation.query db_query op kw s = Outcome (throw e) s [].
Proof.
  intros S db_query op kw e s Hc Hs Hk. rewrite query_lookup_path by done.
  destruct op; try (by apply base_query_key_error).
  unfold GemmV2.query. cbn in Hk. by rewrite Hk.
Qed.

(** A generation attention called without its sequence length. *)
Lemma query_raises_key_error_witness :
  let op := Operation.GenerationAttention
              {| GenerationAttentionV2.base := Fixture.fields 1 ∅ (Some (Fixture.nearest 4 9));
                 GenerationAttentionV2._n := 32; GenerationAttentionV2._n_kv := 8;
                 GenerationAttentionV2._kv_cache_dtype := GEMMQuantMode_float16;
                 GenerationAttentionV2._window_size := 0;
                 GenerationAttentionV2._head_size := 128 |} in
  Operation.query (S:=unit) (λ _ _, raise RecursionError) op [("batch_size", 4)] tt
  = Outcome (throw (KeyError "s")) tt [].
Proof.
  intros op.
  apply (query_raises_key_error unit (λ _ _, raise RecursionError) op
           [("batch_size", 4)] (KeyError "s") tt); reflexivity.
Defined.

(** X9: on a miss, every class but the matrix multiply hands [predict] the
    caller's keyword arguments as they came (all of them, in order, the
    operation's own configuration not among them), calls it once, and
    returns the prediction times the scale factor, or raises what
    [predict] raised. *)
Theorem estimator_fallback_passes_kwargs :
  ∀ (S : Type) (db_query : string → kwargs → Py S PerformanceResult.t)
    (op : Operation.t) (kw : kwargs) (key : lookup_key) (est : Estimator) (s : S),
    is_composite op = false →
    short_circuits op = false →
    (∀ o, op ≠ Operation.Gemm o) →
    Operation.get_lookup_key op kw = ok key →
    index_get (OperationV2.exact_match_dict (Operation.fields op)) key = None →
    OperationV2.estimator (Operation.fields op) = Some est →
    Operation.query db_query op kw s
    = Outcome
        (p ← EstimatorMethods.predict est kw;
         ok (PerformanceResult.new
               (p.1 * OperationV2.scale_factor (Operation.fields op))
               (p.2 * OperationV2.scale_factor (Operation.fields op))))
        s [EvPredict kw].
Proof.
  intros S db_query op kw key est s Hc Hs Hg Hk Hi He.
  rewrite query_lookup_path by done.
  destruct op; try (by eapply base_query_fallback). by destruct (Hg o).
Qed.

(** As in [test_estimator_fallback]: the stub misses and the estimator,
    fitted on one sample (4, 9), is asked with (a=1, b=2). *)
Lemma estimator_fallback_passes_kwargs_witness :
  let op := Operation.TestStub
              {| StubOperation.base := Fixture.fields 3 ∅ (Some (Fixture.nearest 4 9));
                 StubOperation._data := ∅ |} in
  Operation.query (S:=unit) (λ _ _, raise RecursionError) op [("a", 1); ("b", 2)] tt
  = Outcome (ok (PerformanceResult.new (4 * 3) (9 * 3))) tt
      [EvPredict [("a", 1); ("b", 2)]].
Proof.
  intros op.
  apply (estimator_fallback_passes_kwargs unit (λ _ _, raise RecursionError) op
           [("a", 1); ("b", 2)] [VInt 1; VInt 2] (Fixture.nearest 4 9) tt);
    try reflexivity.
  intros o. discriminate.
Defined.

Lemma base_query_calls {S : Type} (glk : kwargs → result lookup_key)
    (self : OperationV2.t) (kw : kwargs) (s : S) :
  calls (OperationV2.query glk self kw s) = []
  ∨ (calls (OperationV2.query glk self kw s) = [EvPredict kw]
     ∧ is_Some (OperationV2.estimator self)
     ∧ ∃ key, glk kw = ok key
              ∧ index_get (OperationV2.exact_match_dict self) key = None).
Proof.
  destruct (glk kw) as [e|key] eqn:Hk.
  - left. by rewrite (base_query_key_error glk self kw e).
  - destruct (index_get (OperationV2.exact_match_dict self) key) as [entry|] eqn:Hi.
    + left. by rewrite (base_query_hit glk self kw key entry).
    + destruct (OperationV2.estimator self) as [est|] eqn:He.
      * right. rewrite (base_query_fallback glk self kw key est) by done. eauto.
      * left. by rewrite (base_query_miss glk self kw key).
Qed.

Lemma non_composite_ignores_orchestrator {S : Type}
    (db_query db_query' : string → kwargs → Py S PerformanceResult.t)
    (op : Operation.t) (kw : kwargs) :
  is_composite op = false →
  Operation.query db_query op kw = Operation.query db_query' op kw.
Proof. by destruct op. Qed.

(** X10: a query of a non-composite operation calls [predict] at most
    once, and only when an Estimator is configured and the computed key is
    absent from the exact-match index; it never changes the orchestrator. *)
Theorem predict_called_at_most_once :
  ∀ (S : Type) (db_query : string → kwargs → Py S PerformanceResult.t)
    (op : Operation.t) (kw : kwargs) (s : S),
    is_composite op = false →
    let r := Operation.query db_query op kw s in
    final r = s
    ∧ (calls r = []
       ∨ (∃ args : kwargs, calls r = [EvPredict args])
         ∧ short_circuits op = false
         ∧ is_Some (OperationV2.estimator (Operation.fields op))
         ∧ ∃ key : lookup_key,
             Operation.get_lookup_key op kw = ok key
             ∧ index_get (OperationV2.exact_match_dict (Operation.fields op)) key
               = None).
Proof.
  intros S db_query op kw s Hc r. split.
  { unfold r.
    rewrite (non_composite_ignores_orchestrator db_query (λ _ _, raise RecursionError))
      by done.
    apply operation_query_read_only. intros sub kw'. apply read_only_raise. }
  unfold r. destruct (short_circuits op) eqn:Hs.
  { left. destruct op; try discriminate; cbn in Hs; apply bool_decide_eq_true in Hs;
      cbn [Operation.query].
    - unfold CustomAllReduceV2.query. by rewrite decide_True.
    - unfold P2PV2.query. by rewrite decide_True. }
  rewrite query_lookup_path by done.
  destruct op; try discriminate;
    try (match goal with
         | |- context [OperationV2.query (Operation.get_lookup_key ?op) _ _ _] =>
             destruct (base_query_calls (S:=S) (Operation.get_lookup_key op)
                         (Operation.fields op) kw s)
               as [Hnone|(Hone & Hest & key & Hkey & Hmiss)];
             [by left|right; split; [by eexists|]; split; [done|]; split; [done|];
                      by exists key]
         end).
  cbn [Operation.get_lookup_key Operation.fields].
  destruct (GemmV2.get_lookup_key o kw) as [e|key] eqn:Hk.
  - left. unfold GemmV2.query. by rewrite Hk.
  - destruct (index_get (OperationV2.exact_match_dict (GemmV2.base o)) key)
      as [entry|] eqn:Hi.
    + left. by rewrite (gemm_query_hit o kw key entry).
    + destruct (OperationV2.estimator (GemmV2.base o)) as [est|] eqn:He.
      * right. split; [|eauto].
        pose proof Hk as Hk'. unfold GemmV2.get_lookup_key in Hk'.
        destruct (getitem kw "M") as [?|M] eqn:HM; [discriminate|].
        rewrite result_bind_ok in Hk'.
        destruct (floordiv M (GemmV2._scale_num_tokens o)) as [?|m] eqn:Hd;
          [discriminate|].
        unfold GemmV2.query.
        rewrite Hk, bind_lift_ok, Hi, He, HM, bind_lift_ok, Hd, bind_lift_ok, !bind_run.
        cbn [emit lift value final calls].
        eexists. by destruct (EstimatorMethods.predict est _).
      * left. by rewrite (gemm_query_miss o kw key).
Qed.

Lemma predict_called_at_most_once_witness :
  let op := Operation.Gemm
              (Fixture.gemm 1024 512 GEMMQuantMode_float16 2 ∅
                 (Some (Fixture.nearest 4 9))) in
  let r := Operation.query (S:=unit) (λ _ _, raise RecursionError) op [("M", 32)] tt in
  final r = tt
  ∧ (calls r = []
     ∨ (∃ args : kwargs, calls r = [EvPredict args])
       ∧ short_circuits op = false
       ∧ is_Some (OperationV2.estimator (Operation.fields op))
       ∧ ∃ key : lookup_key,
           Operation.get_lookup_key op [("M", 32)] = ok key
           ∧ index_get (OperationV2.exact_match_dict (Operation.fields op)) key = None).
Proof.
  intros op.
  exact (predict_called_at_most_once unit (λ _ _, raise RecursionError) op
           [("M", 32)] tt eq_refl).
Defined.

(** ** Constructed operations *)

Lemma init_without_table (sp : SciPy) (bc : string) (est : option Estimator)
    (sf : float) (d : ExactMatchIndex) :
  OperationV2.init sp bc est sf (d, None)
  = ok {| OperationV2.backend_context := bc; OperationV2.estimator := est;
          OperationV2.scale_factor := sf; OperationV2.exact_match_dict := d;
          OperationV2.flat_matrix := None |}.
Proof. unfold OperationV2.init. by destruct est. Qed.

Ltac constructed_fields H :=
  unfold GemmV2_init, ContextAttentionV2_init, GenerationAttentionV2_init,
    ContextMLAV2_init, GenerationMLAV2_init, MLABmmV2_init, NcclV2_init,
    CustomAllReduceV2_init, P2PV2_init, MoEV2_init, ElementWiseV2_init,
    EmbeddingV2_init,
    GemmV2.load_data, ContextAttentionV2.load_data, GenerationAttentionV2.load_data,
    ContextMLAV2.load_data, GenerationMLAV2.load_data, MLABmmV2.load_data,
    NcclV2.load_data, CustomAllReduceV2.load_data, P2PV2.load_data,
    MoEV2.load_data, ElementWiseV2.load_data, EmbeddingV2.load_data in H;
  repeat match type of H with
         | context [floordiv ?a ?b] =>
             destruct (floordiv a b); [discriminate|]; rewrite result_bind_ok in H
         end;
  rewrite init_without_table, result_bind_ok in H;
  injection H as <-.

Lemma dispatch_init_fields (backend : string) (hs tk ne tp ep dp : Z) (pre : bool)
    (scale_factor : float) (o : MoEDispatchV2.t) :
  MoEDispatchV2_init backend hs tk ne tp ep dp pre scale_factor = ok o →
  MoEDispatchV2.base o
  = CompositeOperationV2.init backend MoEDispatchV2.sub_operations scale_factor.
Proof.
  unfold MoEDispatchV2_init. intros H.
  destruct (floordiv (tp * ep) dp); [discriminate|].
  rewrite result_bind_ok in H. by injection H as <-.
Qed.

Lemma constructed_fields_are (sp : SciPy) (estimator : option Estimator)
    (scale_factor : float) (op : Operation.t) :
  Constructed sp estimator scale_factor op →
  OperationV2.exact_match_dict (Operation.fields op) = ∅
  ∧ OperationV2.flat_matrix (Operation.fields op) = None
  ∧ OperationV2.estimator (Operation.fields op) = estimator
  ∧ OperationV2.scale_factor (Operation.fields op) = scale_factor
  ∧ (is_composite op = true → ∃ o, op = Operation.MoEDispatch o).
Proof.
  intros Hc.
  destruct Hc as [? ? ? ? ? ? ? H|? ? ? ? ? ? ? ? H|? ? ? ? ? ? ? H|? ? ? ? ? H
                 |? ? ? ? H|? ? ? ? ? H|? ? ? ? ? ? H|? ? ? ? H|? ? ? ? H
                 |? ? ? ? ? ? ? ? ? ? ? ? ? H|? ? ? ? ? H|? ? ? ? H
                 |? ? ? ? ? ? ? ? o -> H];
    [constructed_fields H; done..|].
  cbn [Operation.fields]. rewrite (dispatch_init_fields _ _ _ _ _ _ _ _ _ _ H).
  repeat split. intros _. by exists o.
Qed.

(** X11: an operation of a shipped class, the dispatch composite included,
    as its constructor returns it, holds no data: its exact-match index is
    empty and it has no sample table, so its estimator is the one passed in
    ([None] for the composite, whose constructor takes none), never fitted
    by the constructor; the scale factor is the one passed in. *)
Theorem constructed_operation_holds_no_data :
  ∀ (sp : SciPy) (estimator : option Estimator) (scale_factor : float)
    (op : Operation.t),
    Constructed sp estimator scale_factor op →
    OperationV2.exact_match_dict (Operation.fields op) = ∅
    ∧ OperationV2.flat_matrix (Operation.fields op) = None
    ∧ OperationV2.estimator (Operation.fields op) = estimator
    ∧ OperationV2.scale_factor (Operation.fields op) = scale_factor.
Proof.
  intros sp estimator scale_factor op Hc.
  destruct (constructed_fields_are sp estimator scale_factor op Hc)
    as (? & ? & ? & ? & _). done.
Qed.

(** A new matrix multiply and a new dispatch composite. *)
Lemma constructed_operation_holds_no_data_witness :
  (∃ o : GemmV2.t,
     GemmV2_init Fixture.scipy "trtllm" 1024 512 GEMMQuantMode_float16
       (Some (Nearest NearestNeighbor.init)) 2 1 false = ok o
     ∧ OperationV2.exact_match_dict (GemmV2.base o) = ∅
     ∧ OperationV2.estimator (GemmV2.base o) = Some (Nearest NearestNeighbor.init))
  ∧ (∃ o : MoEDispatchV2.t,
       MoEDispatchV2_init "trtllm" 4096 2 8 1 2 1 true 2 = ok o
       ∧ OperationV2.exact_match_dict (Operation.fields (Operation.MoEDispatch o)) = ∅
       ∧ OperationV2.estimator (Operation.fields (Operation.MoEDispatch o)) = None).
Proof.
  split.
  - eexists. split; [reflexivity|].
    destruct (constructed_operation_holds_no_data Fixture.scipy
                (Some (Nearest NearestNeighbor.init)) 2 _
                (constructed_gemm Fixture.scipy (Some (Nearest NearestNeighbor.init)) 2
                   "trtllm" 1024 512 GEMMQuantMode_float16 1 false _ eq_refl))
      as (Hd & _ & He & _).
    split; [exact Hd|exact He].
  - eexists. split; [reflexivity|].
    destruct (constructed_operation_holds_no_data Fixture.scipy None 2 _
                (constructed_moe_dispatch Fixture.scipy None 2
                   "trtllm" 4096 2 8 1 2 1 true _ eq_refl eq_refl))
      as (Hd & _ & He & _).
    split; [exact Hd|exact He].
Defined.

Lemma index_get_empty (key : lookup_key) : index_get ∅ key = None.
Proof. unfold index_get. apply lookup_empty. Qed.

Lemma gemm_query_fallback {S : Type} (o : GemmV2.t) (kw : kwargs) (key : lookup_key)
    (est : Estimator) (s : S) :
  GemmV2.get_lookup_key o kw = ok key →
  index_get (OperationV2.exact_match_dict (GemmV2.base o)) key = None →
  OperationV2.estimator (GemmV2.base o) = Some est →
  ∃ args : kwargs,
    GemmV2.query o kw s
    = Outcome (p ← EstimatorMethods.predict est args;
               ok (OperationV2.scaled (GemmV2.base o) p.1 p.2))
        s [EvPredict args].
Proof.
  intros Hk Hi He. pose proof Hk as Hk'. unfold GemmV2.get_lookup_key in Hk'.
  destruct (getitem kw "M") as [?|M] eqn:HM; [discriminate|].
  rewrite result_bind_ok in Hk'.
  destruct (floordiv M (GemmV2._scale_num_tokens o)) as [?|m] eqn:Hd; [discriminate|].
  unfold GemmV2.query.
  rewrite Hk, bind_lift_ok, Hi, He, HM, bind_lift_ok, Hd, bind_lift_ok, !bind_run.
  cbn [emit lift value final calls].
  exists [("M", m); ("N", GemmV2._n o); ("K", GemmV2._k o)].
  by destruct (EstimatorMethods.predict est _).
Qed.

(** The guards of the custom all-reduce and the point-to-point, and the
    body of the dispatch composite: (0, 0), nothing read. *)
Lemma zero_without_lookup {S : Type}
    (db_query : string → kwargs → Py S PerformanceResult.t) (op : Operation.t)
    (kw : kwargs) (s : S) :
  short_circuits op = true ∨ (∃ o, op = Operation.MoEDispatch o) →
  Operation.query db_query op kw s = Outcome (ok (PerformanceResult.new 0 0)) s [].
Proof.
  intros [Hs|[o ->]]; [|reflexivity].
  destruct op; try discriminate; cbn [short_circuits] in Hs;
    apply bool_decide_eq_true in Hs; cbn [Operation.query].
  - unfold CustomAllReduceV2.query. by rewrite decide_True.
  - unfold P2PV2.query. by rewrite decide_True.
Qed.

(** X12: a newly constructed operation of a shipped class, given no
    Estimator or one that is not fitted, never returns measured data from
    [query], for whatever keyword arguments. A short-circuited operation
    and the dispatch composite return (0, 0) without any lookup; every
    other operation raises (the [KeyError] or [ZeroDivisionError] of the
    key, the lookup miss, or NotFitted). *)
Theorem constructed_operation_cannot_answer :
  ∀ (sp : SciPy) (estimator : option Estimator) (scale_factor : float)
    (op : Operation.t) (S : Type)
    (db_query : string → kwargs → Py S PerformanceResult.t) (kw : kwargs) (s : S),
    Constructed sp estimator scale_factor op →
    (∀ est : Estimator, estimator = Some est → EstimatorMethods.fitted est = false) →
    if short_circuits op || is_composite op
    then Operation.query db_query op kw s
         = Outcome (ok (PerformanceResult.new 0 0)) s []
    else ∃ e : exn, value (Operation.query db_query op kw s) = throw e.
Proof.
  intros sp estimator scale_factor op S db_query kw s Hc Hunfit.
  destruct (constructed_fields_are sp estimator scale_factor op Hc)
    as (Hd & _ & He & _ & Hdispatch).
  destruct (short_circuits op) eqn:Hs; cbn [orb].
  { apply zero_without_lookup. by left. }
  destruct (is_composite op) eqn:Hcomp.
  { apply zero_without_lookup. right. by apply Hdispatch. }
  rewrite query_lookup_path by done.
  destruct (Operation.get_lookup_key op kw) as [e|key] eqn:Hk.
  { exists e. destruct op; try discriminate;
      try (by rewrite (base_query_key_error _ _ kw e)).
    unfold GemmV2.query. cbn in Hk. by rewrite Hk. }
  assert (index_get (OperationV2.exact_match_dict (Operation.fields op)) key = None)
    as Hmiss by (rewrite Hd; apply index_get_empty).
  destruct estimator as [est|].
  - specialize (Hunfit est eq_refl).
    exists (EstimatorMethods.not_fitted est).
    destruct op; try discriminate;
      try (rewrite (base_query_fallback _ _ kw key est) by done;
           cbn [value]; by rewrite predict_unfitted).
    destruct (gemm_query_fallback (S:=S) o kw key est s Hk Hmiss He) as [args ->].
    cbn [value]. by rewrite predict_unfitted.
  - destruct op; try discriminate;
      try (eexists; by rewrite (base_query_miss _ _ kw key)).
    eexists. by rewrite (gemm_query_miss o kw key).
Qed.

(** A new matrix multiply with a new estimator ("M" present: NotFitted) and
    a new dispatch composite. *)
Lemma constructed_operation_cannot_answer_witness :
  (∃ (o : GemmV2.t) (e : exn),
     GemmV2_init Fixture.scipy "trtllm" 1024 512 GEMMQuantMode_float16
       (Some (Nearest NearestNeighbor.init)) 2 1 false = ok o
     ∧ value (Operation.query (S:=unit) (λ _ _, raise RecursionError)
                (Operation.Gemm o) [("M", 32)] tt) = throw e)
  ∧ (∃ o : MoEDispatchV2.t,
       MoEDispatchV2_init "trtllm" 4096 2 8 1 2 1 true 2 = ok o
       ∧ Operation.query (S:=unit) (λ _ _, raise RecursionError)
           (Operation.MoEDispatch o) [("x", 32)] tt
         = Outcome (ok (PerformanceResult.new 0 0)) tt []).
Proof.
  split.
  - eexists.
    pose proof (constructed_operation_cannot_answer Fixture.scipy
                  (Some (Nearest NearestNeighbor.init)) 2 _ unit
                  (λ _ _, raise RecursionError) [("M", 32)] tt
                  (constructed_gemm Fixture.scipy (Some (Nearest NearestNeighbor.init)) 2
                     "trtllm" 1024 512 GEMMQuantMode_float16 1 false _ eq_refl)) as H.
    cbn [short_circuits is_composite orb] in H.
    destruct H as [e He].
    + intros est [= <-]. reflexivity.
    + exists e. split; [reflexivity|exact He].
  - eexists. split; [reflexivity|].
    pose proof (constructed_operation_cannot_answer Fixture.scipy None 2 _ unit
                  (λ _ _, raise RecursionError) [("x", 32)] tt
                  (constructed_moe_dispatch Fixture.scipy None 2
                     "trtllm" 4096 2 8 1 2 1 true _ eq_refl eq_refl)) as H.
    cbn [short_circuits is_composite orb] in H.
    apply H. intros est [=].
Defined.

(** ** Composites and the orchestrator *)

Lemma loop_app {S : Type} (db_query : string → kwargs → Py S PerformanceResult.t)
    (pre post : list string) (kw : kwargs) :
  ∀ (total : PerformanceResult.t) (s : S),
    StubComposite.loop db_query (pre ++ post) kw total s
    = (t ← StubComposite.loop db_query pre kw total;
       StubComposite.loop db_query post kw t) s.
Proof.
  induction pre as [|sub pre IH]; intros total s.
  - cbn [app StubComposite.loop]. rewrite bind_run, ret_run. cbn [value final calls].
    unfold ok. by destruct (StubComposite.loop db_query post kw total s).
  - cbn [app StubComposite.loop]. rewrite !bind_run.
    destruct (db_query sub kw s) as [[e|r] s1 c1]; cbn [value final calls]; [done|].
    rewrite IH, !bind_run.
    destruct (StubComposite.loop db_query pre kw _ s1) as [[e|t] s2 c2];
      cbn [value final calls]; [done|]. by rewrite app_assoc.
Qed.

(** X13: a failing sub-query aborts the summing composite. If the
    sub-queries before [sub] return and the one for [sub] raises [e], the
    composite raises [e]: no partial sum is returned and the sub-operations
    after [sub] are not queried (the trace and the final state are those of
    the sub-queries up to [sub]). *)
Theorem composite_aborts_on_failure :
  ∀ (S : Type) (db_query : string → kwargs → Py S PerformanceResult.t)
    (pre post : list string) (sub : string) (scale_factor : float) (backend : string)
    (kw : kwargs) (s s1 s2 : S) (rs : list PerformanceResult.t) (c1 c2 : list event)
    (e : exn),
    sub_queries db_query pre kw s = Outcome (ok rs) s1 c1 →
    db_query sub kw s1 = Outcome (throw e) s2 c2 →
    Operation.query db_query
      (Operation.TestComposite
         {| StubComposite.base :=
              CompositeOperationV2.init backend (pre ++ sub :: post) scale_factor |})
      kw s
    = Outcome (throw e) s2 (c1 ++ c2).
Proof.
  intros S db_query pre post sub scale_factor backend kw s s1 s2 rs c1 c2 e Hpre Hsub.
  cbn [Operation.query]. unfold StubComposite.query.
  cbn [StubComposite.base CompositeOperationV2.init CompositeOperationV2.sub_operations].
  rewrite bind_run, loop_app.
  rewrite (bind_run (StubComposite.loop db_query pre kw (PerformanceResult.new 0 0))).
  rewrite loop_sub_queries, (bind_run (sub_queries db_query pre kw)), Hpre.
  run_simpl. cbn [StubComposite.loop]. rewrite (bind_run (db_query sub kw)), Hsub.
  run_simpl. by rewrite app_nil_r.
Qed.

(** A composite over "a" and the unregistered "zz": the error of "zz". *)
Lemma composite_aborts_on_failure_witness :
  let db := Fixture.database [("a", Fixture.stub 5 25); ("b", Fixture.stub 3 15)] in
  run (Operation.query (DatabaseV2.query 1)
         (Operation.TestComposite
            {| StubComposite.base :=
                 CompositeOperationV2.init "test" (["a"] ++ "zz" :: ["b"]) 1 |})
         [("a", 1); ("b", 2)]) db
  = Outcome (throw (NotImplementedError
               "Operation 'zz' is not registered. Available: ['a', 'b']")) db ([] ++ []).
Proof.
  intros db.
  apply (composite_aborts_on_failure DatabaseV2.t (DatabaseV2.query 1) ["a"] ["b"] "zz"
           1 "test" [("a", 1); ("b", 2)] db db db [PerformanceResult.new 5 25]);
    vm_compute; reflexivity.
Defined.

Lemma loop_raises {S : Type} (db_query : string → kwargs → Py S PerformanceResult.t)
    (subs : list string) (kw : kwargs) (bad : string) (s : S) :
  (∀ sub kw', read_only (db_query sub kw')) →
  bad ∈ subs →
  (∃ e, value (db_query bad kw s) = throw e) →
  ∀ total : PerformanceResult.t,
    ∃ e, value (StubComposite.loop db_query subs kw total s) = throw e.
Proof.
  intros Hro Hin [e0 Hbad]. induction subs as [|sub subs IH]; intros total.
  - by apply elem_of_nil in Hin.
  - cbn [StubComposite.loop]. rewrite bind_run.
    destruct (value (db_query sub kw s)) as [e|r] eqn:Hv; [by exists e|].
    cbn [value]. rewrite Hro. apply elem_of_cons in Hin as [Heq|Hin].
    + subst sub. rewrite Hbad in Hv. discriminate.
    + by apply IH.
Qed.

(** X14: no cycle is detected. A summing composite registered under a name
    that is among its own sub-operations never returns a result: whatever
    the stack depth allowed, [query] on that name raises; when the name is
    the first sub-operation, it raises [RecursionError], leaving the
    database as it was. *)
Theorem self_referencing_composite_overflows :
  ∀ (depth : nat) (db : DatabaseV2.t) (name : string) (subs : list string)
    (scale_factor : float) (backend : string) (kw : kwargs),
    value (run (DatabaseV2.get_operation name) db)
    = ok (Some (Operation.TestComposite
                  {| StubComposite.base :=
                       CompositeOperationV2.init backend subs scale_factor |})) →
    name ∈ subs →
    (∃ e : exn, value (run (DatabaseV2.query depth name kw) db) = throw e)
    ∧ (head subs = Some name →
       run (DatabaseV2.query depth name kw) db = Outcome (throw RecursionError) db []).
Proof.
  intros depth db name subs scale_factor backend kw Hget Hin. cbn in Hget.
  injection Hget as Hget. split.
  - induction depth as [|depth IH]; [by exists RecursionError|].
    rewrite (database_query_registered depth name kw db _ Hget).
    unfold run in *. cbn [Operation.query]. unfold StubComposite.query.
    cbn [StubComposite.base CompositeOperationV2.init
         CompositeOperationV2.sub_operations].
    rewrite bind_run.
    destruct (loop_raises (DatabaseV2.query depth) subs kw name db
                (database_query_read_only depth) Hin IH (PerformanceResult.new 0 0))
      as [e He].
    rewrite He. by exists e.
  - intros Hhead. destruct subs as [|first subs]; [done|]. injection Hhead as ->.
    induction depth as [|depth IH]; [reflexivity|].
    rewrite (database_query_registered depth name kw db _ Hget).
    unfold run in *. cbn [Operation.query]. unfold StubComposite.query.
    cbn [StubComposite.base CompositeOperationV2.init
         CompositeOperationV2.sub_operations StubComposite.loop].
    rewrite !bind_run, IH. reflexivity.
Qed.

Lemma self_referencing_composite_overflows_witness :
  let db := Fixture.database [("a", Fixture.stub 5 25);
                              ("loop", Fixture.composite ["loop"; "a"] 1)] in
  run (DatabaseV2.query 1000 "loop" [("a", 1); ("b", 2)]) db
  = Outcome (throw RecursionError) db [].
Proof.
  intros db.
  destruct (self_referencing_composite_overflows 1000 db "loop" ["loop"; "a"] 1 "test"
              [("a", 1); ("b", 2)] eq_refl) as [_ H].
  - apply elem_of_cons. by left.
  - apply H. reflexivity.
Defined.

(** ** Weights of the mixture of experts *)



(** ** Estimators and the sample table *)

Lemma column_from_end_lookup (j : nat) (a : matrix) (col : list float) :
  column_from_end j a = ok col →
  length col = length a
  ∧ ∀ (i : nat) (x : float),
      col !! i = Some x → ∃ row, a !! i = Some row ∧ reverse row !! pred j = Some x.
Proof.
  unfold column_from_end. revert col.
  induction a as [|row a IH]; intros col Hcol; cbn [rmapM] in Hcol.
  - injection Hcol as <-. split; [done|]. intros i x Hx. by rewrite lookup_nil in Hx.
  - destruct (reverse row !! pred j) as [x0|] eqn:Hx0; [|discriminate].
    cbn [rbind ok] in Hcol.
    destruct (rmapM _ a) as [e|col'] eqn:Hrest; [discriminate|].
    cbn [rbind ok] in Hcol. injection Hcol as <-.
    destruct (IH col' eq_refl) as [Hlen Hrows]. split; [cbn; by rewrite Hlen|].
    intros [|i] x Hx; cbn in Hx.
    + injection Hx as <-. by exists row.
    + destruct (Hrows i x Hx) as (row' & Hrow' & Hx'). by exists row'.
Qed.

Lemma column_from_end_narrow (j : nat) (a : matrix) (row : list float) :
  row ∈ a → (length row < j)%nat → column_from_end j a = throw IndexError.
Proof.
  unfold column_from_end. intros Hin Hlen.
  induction a as [|row' a IH]; [by apply elem_of_nil in Hin|].
  cbn [rmapM]. destruct (reverse row' !! pred j) as [x|] eqn:Hx; [|reflexivity].
  cbn [rbind ok]. apply elem_of_cons in Hin as [->|Hin].
  - apply lookup_lt_Some in Hx. rewrite length_reverse in Hx. lia.
  - by rewrite IH.
Qed.

(** X16: what the nearest-neighbour estimator predicts is a measured
    sample: after a [fit] that returned on a table, every pair [predict]
    returns is the last two columns (latency, energy) of one row of that
    table, the row the k-d tree pointed at. *)
Theorem nearest_neighbor_predicts_a_sample :
  ∀ (sp : SciPy) (n : NearestNeighbor.t) (a : matrix) (est' : Estimator)
    (kw : kwargs) (lat eng : float),
    a ≠ [] →
    EstimatorMethods.fit sp (Nearest n) (Some a) = (ok tt, est') →
    EstimatorMethods.predict est' kw = ok (lat, eng) →
    ∃ (i : nat) (row : list float),
      a !! i = Some row
      ∧ reverse row !! 1%nat = Some lat
      ∧ reverse row !! 0%nat = Some eng.
Proof.
  intros sp n a est' kw lat eng Ha Hfit Hpred.
  cbn [EstimatorMethods.fit] in Hfit. unfold NearestNeighbor.fit in Hfit.
  destruct a as [|row0 a0]; [done|]. set (a := row0 :: a0) in *.
  destruct (column_from_end 2 a) as [?|lats] eqn:Hlats; [discriminate|].
  destruct (column_from_end 1 a) as [?|engs] eqn:Hengs; [discriminate|].
  destruct (scipy (cKDTree sp (all_but_last_two a))) as [?|tree]; [discriminate|].
  cbn in Hfit. injection Hfit as <-.
  cbn [EstimatorMethods.predict] in Hpred. unfold NearestNeighbor.predict in Hpred.
  cbn [NearestNeighbor._fitted NearestNeighbor._tree NearestNeighbor._latencies
       NearestNeighbor._energies negb] in Hpred.
  destruct (call (Some tree) (values kw)) as [?|idx]; [discriminate|].
  rewrite result_bind_ok in Hpred. unfold NearestNeighbor.item in Hpred.
  destruct (lats !! idx) as [l|] eqn:Hl; [|discriminate].
  rewrite result_bind_ok in Hpred.
  destruct (engs !! idx) as [g|] eqn:Hg; [|discriminate].
  rewrite result_bind_ok in Hpred. injection Hpred as <- <-.
  destruct (column_from_end_lookup 2 a lats Hlats) as [_ Hrow].
  destruct (column_from_end_lookup 1 a engs Hengs) as [_ Hrow'].
  destruct (Hrow idx l Hl) as (row & Hi & Hlat).
  destruct (Hrow' idx g Hg) as (row' & Hi' & Heng).
  exists idx, row. rewrite Hi in Hi'. injection Hi' as <-. done.
Qed.

(** As in [test_exact_match]: predictions come from the one row. *)
Lemma nearest_neighbor_predicts_a_sample_witness :
  ∃ (i : nat) (row : list float),
    [[1; 2; 10; 50]%float] !! i = Some row
    ∧ reverse row !! 1%nat = Some 10%float
    ∧ reverse row !! 0%nat = Some 50%float.
Proof.
  apply (nearest_neighbor_predicts_a_sample Fixture.scipy NearestNeighbor.init
           [[1; 2; 10; 50]%float]
           (EstimatorMethods.fit Fixture.scipy (Nearest NearestNeighbor.init)
              (Some [[1; 2; 10; 50]%float])).2
           [("p1", 1); ("p2", 2)] 10 50);
    [discriminate|reflexivity|reflexivity].
Defined.

(** X17: a [fit] that returns on a non-empty table overwrites all the
    estimator knew: the estimator afterwards is the same whatever its state
    before (new, fitted on another table, or left half-updated by a [fit]
    that raised). *)
Theorem successful_fit_replaces_state :
  ∀ (sp : SciPy) (est other est' : Estimator) (a : matrix),
    a ≠ [] →
    class_name other = class_name est →
    EstimatorMethods.fit sp est (Some a) = (ok tt, est') →
    EstimatorMethods.fit sp other (Some a) = (ok tt, est').
Proof.
  intros sp est other est' a Ha Hclass Hfit. destruct a as [|row0 a0]; [done|].
  destruct est as [l|n], other as [l'|n']; try discriminate;
    cbn [EstimatorMethods.fit] in *.
  - unfold LinearInterpolator.fit in *.
    destruct (column_from_end 2 _); [discriminate|].
    destruct (column_from_end 1 _); [discriminate|].
    destruct (scipy (LinearNDInterpolator sp _ _)); [discriminate|].
    destruct (scipy (LinearNDInterpolator sp _ _)); [discriminate|].
    destruct (scipy (NearestNDInterpolator sp _ _)); [discriminate|].
    destruct (scipy (NearestNDInterpolator sp _ _)); [discriminate|].
    cbn in *. by injection Hfit as <-.
  - unfold NearestNeighbor.fit in *.
    destruct (column_from_end 2 _); [discriminate|].
    destruct (column_from_end 1 _); [discriminate|].
    destruct (scipy (cKDTree sp _)); [discriminate|].
    cbn in *. by injection Hfit as <-.
Qed.

Lemma successful_fit_replaces_state_witness :
  let a := [[1; 2; 10; 50]%float] in
  let b := [[3; 4; 20; 100]%float] in
  let fresh := Nearest NearestNeighbor.init in
  let fitted_on_b := (EstimatorMethods.fit Fixture.scipy fresh (Some b)).2 in
  EstimatorMethods.fit Fixture.scipy fitted_on_b (Some a)
  = (ok tt, (EstimatorMethods.fit Fixture.scipy fresh (Some a)).2).
Proof.
  intros a b fresh fitted_on_b.
  apply (successful_fit_replaces_state Fixture.scipy fresh fitted_on_b
           (EstimatorMethods.fit Fixture.scipy fresh (Some a)).2 a);
    [discriminate|reflexivity|reflexivity].
Defined.

(** X18: [fit] on a non-empty table with a row of fewer than two columns
    (no room for the latency and energy columns) raises [IndexError] and
    leaves the estimator exactly as it was. *)
Theorem fit_on_narrow_table_raises :
  ∀ (sp : SciPy) (est : Estimator) (a : matrix) (row : list float),
    row ∈ a →
    (length row < 2)%nat →
    EstimatorMethods.fit sp est (Some a) = (throw IndexError, est).
Proof.
  intros sp est a row Hin Hlen.
  pose proof (column_from_end_narrow 2 a row Hin Hlen) as Hcol.
  destruct a as [|row0 a0]; [by apply elem_of_nil in Hin|].
  destruct est as [l|n]; cbn [EstimatorMethods.fit].
  - unfold LinearInterpolator.fit. by rewrite Hcol.
  - unfold NearestNeighbor.fit. by rewrite Hcol.
Qed.

Lemma fit_on_narrow_table_raises_witness :
  EstimatorMethods.fit Fixture.scipy (Linear LinearInterpolator.init)
    (Some [[1; 2; 10; 50]%float; [7]%float])
  = (throw IndexError, Linear LinearInterpolator.init).
Proof.
  apply (fit_on_narrow_table_raises Fixture.scipy (Linear LinearInterpolator.init)
           [[1; 2; 10; 50]%float; [7]%float] [7]%float).
  - apply elem_of_cons. right. apply elem_of_cons. by left.
  - cbn. lia.
Defined.

(** X19: the pair the linear interpolator returns is never mixed. When
    [predict] returns, either the linear latency is not NaN and latency and
    energy are both the linear interpolants' values, or it is NaN and both
    are the nearest-neighbour interpolants' values; the latency returned is
    NaN only if the nearest-neighbour interpolant itself returned NaN. *)
Theorem linear_interpolator_fallback :
  ∀ (l : LinearInterpolator.t) (kw : kwargs) (lat eng : float),
    EstimatorMethods.predict (Linear l) kw = ok (lat, eng) →
    let point := values kw in
    LinearInterpolator._fitted l = true
    ∧ ((call (LinearInterpolator._latency_interp l) point = ok lat
        ∧ call (LinearInterpolator._energy_interp l) point = ok eng
        ∧ PrimFloat.is_nan lat = false)
       ∨ ((∃ x, call (LinearInterpolator._latency_interp l) point = ok x
                ∧ PrimFloat.is_nan x = true)
          ∧ call (LinearInterpolator._latency_nn l) point = ok lat
          ∧ call (LinearInterpolator._energy_nn l) point = ok eng)).
Proof.
  intros l kw lat eng Hp point. cbn [EstimatorMethods.predict] in Hp.
  unfold LinearInterpolator.predict in Hp. fold point in Hp.
  destruct (LinearInterpolator._fitted l); [|discriminate]. split; [done|].
  cbn [negb] in Hp.
  destruct (call (LinearInterpolator._latency_interp l) point) as [?|x]; [discriminate|].
  rewrite result_bind_ok in Hp.
  destruct (call (LinearInterpolator._energy_interp l) point) as [?|y]; [discriminate|].
  rewrite result_bind_ok in Hp.
  destruct (PrimFloat.is_nan x) eqn:Hnan.
  - right. split; [by exists x|].
    destruct (call (LinearInterpolator._latency_nn l) point) as [?|x']; [discriminate|].
    rewrite result_bind_ok in Hp.
    destruct (call (LinearInterpolator._energy_nn l) point) as [?|y']; [discriminate|].
    rewrite result_bind_ok in Hp. by injection Hp as <- <-.
  - left. by injection Hp as <- <-.
Qed.

Lemma linear_interpolator_fallback_witness :
  let l := {| LinearInterpolator._latency_interp := Some (λ _, inr nan);
              LinearInterpolator._energy_interp := Some (λ _, inr 7%float);
              LinearInterpolator._latency_nn := Some (λ _, inr 4%float);
              LinearInterpolator._energy_nn := Some (λ _, inr 9%float);
              LinearInterpolator._fitted := true |} in
  LinearInterpolator._fitted l = true
  ∧ ((call (LinearInterpolator._latency_interp l) [100; 100] = ok 4%float
      ∧ call (LinearInterpolator._energy_interp l) [100; 100] = ok 9%float
      ∧ PrimFloat.is_nan 4 = false)
     ∨ ((∃ x, call (LinearInterpolator._latency_interp l) [100; 100] = ok x
              ∧ PrimFloat.is_nan x = true)
        ∧ call (LinearInterpolator._latency_nn l) [100; 100] = ok 4%float
        ∧ call (LinearInterpolator._energy_nn l) [100; 100] = ok 9%float)).
Proof.
  intros l.
  exact (linear_interpolator_fallback l [("p1", 100); ("p2", 100)] 4 9 eq_refl).
Defined.

(** ** Construction with a sample table *)

(** X20: [OperationV2.__init__] fits the estimator exactly when it is given
    both an estimator and a sample table. It raises what [fit] raises and
    nothing else. When it returns, index, table, scale factor and context
    are stored as given; without a table the estimator is stored untouched;
    with an estimator and a non-empty table the stored estimator is fitted,
    so a later miss cannot raise NotFitted. *)
Theorem init_fits_estimator :
  ∀ (sp : SciPy) (backend_context : string) (estimator : option Estimator)
    (scale_factor : float) (d : ExactMatchIndex) (table : option matrix),
    let r := OperationV2.init sp backend_context estimator scale_factor (d, table) in
    (∀ e : exn,
       r = throw e ↔
       ∃ est a est', estimator = Some est ∧ table = Some a
                     ∧ EstimatorMethods.fit sp est (Some a) = (throw e, est'))
    ∧ (∀ self : OperationV2.t,
         r = ok self →
         OperationV2.exact_match_dict self = d
         ∧ OperationV2.flat_matrix self = table
         ∧ OperationV2.scale_factor self = scale_factor
         ∧ OperationV2.backend_context self = backend_context
         ∧ (table = None → OperationV2.estimator self = estimator)
         ∧ (estimator = None → OperationV2.estimator self = None)
         ∧ (∀ est a, estimator = Some est → table = Some a → a ≠ [] →
              ∃ est', OperationV2.estimator self = Some est'
                      ∧ EstimatorMethods.fitted est' = true
                      ∧ ∀ kw, EstimatorMethods.predict est' kw
                              ≠ throw (EstimatorMethods.not_fitted est'))).
Proof.
  intros sp bc estimator sf d table r. unfold r, OperationV2.init. cbn [fst snd].
  destruct estimator as [est|], table as [a|].
  - destruct (EstimatorMethods.fit sp est (Some a)) as [[e|[]] est'] eqn:Hfit.
    + split.
      * intros e'. split.
        -- intros [= <-]. by exists est, a, est'.
        -- intros (? & ? & ? & [= <-] & [= <-] & Hfit'). rewrite Hfit in Hfit'.
           by injection Hfit' as <- _.
      * intros self [=].
    + split.
      * intros e'. split; [discriminate|].
        intros (? & ? & ? & [= <-] & [= <-] & Hfit'). rewrite Hfit in Hfit'.
        discriminate.
      * intros self [= <-]. cbn. repeat split; try done.
        intros ? ? [= <-] [= <-] Ha. exists est'.
        pose proof (fit_returns_sets_fitted sp est est' a Ha Hfit) as Hf.
        split; [done|]. split; [done|]. intros kw. by apply predict_fitted.
  - split.
    + intros e. split; [discriminate|]. by intros (? & ? & ? & _ & [=] & _).
    + intros self [= <-]. cbn. repeat split; done.
  - split.
    + intros e. split; [discriminate|]. by intros (? & ? & ? & [=] & _).
    + intros self [= <-]. cbn. repeat split; done.
  - split.
    + intros e. split; [discriminate|]. by intros (? & ? & ? & [=] & _).
    + intros self [= <-]. cbn. repeat split; done.
Qed.

(** As in [test_estimator_fallback]: an operation whose [load_data] returns
    a table is constructed with its estimator fitted. *)
Lemma init_fits_estimator_witness :
  let table := [[1; 2; 10; 50]%float; [3; 4; 20; 100]%float] in
  ∃ (self : OperationV2.t) (est' : Estimator),
    OperationV2.init Fixture.scipy "test" (Some (Nearest NearestNeighbor.init)) 1
      (∅, Some table) = ok self
    ∧ OperationV2.estimator self = Some est'
    ∧ EstimatorMethods.fitted est' = true.
Proof.
  intros table.
  destruct (init_fits_estimator Fixture.scipy "test"
              (Some (Nearest NearestNeighbor.init)) 1 ∅ (Some table)) as [_ H].
  eexists.
  edestruct (H _ eq_refl) as (_ & _ & _ & _ & _ & _ & Hfit).
  destruct (Hfit (Nearest NearestNeighbor.init) table eq_refl eq_refl)
    as (est' & He & Hf & _); [discriminate|].
  exists est'. split; [reflexivity|]. split; [exact He|exact Hf].
Defined.

(** ** Order of the keyword arguments *)

Lemma kwargs_lookup_elem_of (kw : kwargs) (name : string) (v : Z) :
  NoDup kw.*1 → (kwargs_lookup kw name = Some v ↔ (name, v) ∈ kw).
Proof.
  induction kw as [|[n x] kw IH]; cbn.
  - intros _. split; [done|by intros ?%elem_of_nil].
  - intros [Hnotin Hnd]%NoDup_cons. rewrite elem_of_cons.
    destruct (decide (n = name)) as [->|Hne].
    + split; [intros [= ->]; by left|].
      intros [[= ->]|Hin]; [done|].
      destruct Hnotin. apply list_elem_of_fmap. by exists (name, v).
    + rewrite IH by done. split; [by right|]. intros [[= ? ?]|?]; [congruence|done].
Qed.

Lemma kwargs_lookup_permutation (kw kw' : kwargs) (name : string) :
  kw ≡ₚ kw' → NoDup kw.*1 → kwargs_lookup kw' name = kwargs_lookup kw name.
Proof.
  intros Hp Hnd.
  assert (NoDup kw'.*1) as Hnd' by (by rewrite <- Hp).
  apply option_eq. intros v.
  rewrite !kwargs_lookup_elem_of by done. by rewrite Hp.
Qed.

Lemma sorted_values_permutation (kw kw' : kwargs) :
  kw ≡ₚ kw' → merge_sort Z.le (values kw') = merge_sort Z.le (values kw).
Proof.
  intros Hp. apply (Sorted_unique Z.le).
  - apply Sorted_merge_sort; apply _.
  - apply Sorted_merge_sort; apply _.
  - rewrite !merge_sort_Permutation. unfold values. by rewrite Hp.
Qed.

(** X21: the lookup key does not depend on the order in which the keyword
    arguments are passed: for every class, reordering the (distinctly
    named) arguments gives the same key or the same exception. (What
    [predict] receives on a miss does keep the caller's order.) *)
Theorem lookup_key_ignores_argument_order :
  ∀ (op : Operation.t) (kw kw' : kwargs),
    kw ≡ₚ kw' →
    NoDup kw.*1 →
    Operation.get_lookup_key op kw' = Operation.get_lookup_key op kw.
Proof.
  intros op kw kw' Hp Hnd.
  pose proof (kwargs_lookup_permutation kw kw') as Hl.
  destruct op; unfold_keys; unfold getitem, get_default;
    rewrite ?Hl by done; try reflexivity.
  by rewrite (sorted_values_permutation kw kw').
Qed.

Lemma lookup_key_ignores_argument_order_witness :
  let op := Operation.ContextMLA
              {| ContextMLAV2.base := Fixture.fields 1 ∅ None;
                 ContextMLAV2._num_heads := 128;
                 ContextMLAV2._kvcache_quant_mode := GEMMQuantMode_float16;
                 ContextMLAV2._fmha_quant_mode := GEMMQuantMode_float16 |} in
  Operation.get_lookup_key op [("prefix", 16); ("s", 1024); ("batch_size", 4)]
  = Operation.get_lookup_key op [("batch_size", 4); ("s", 1024); ("prefix", 16)].
Proof.
  intros op.
  apply (lookup_key_ignores_argument_order op
           [("batch_size", 4); ("s", 1024); ("prefix", 16)]
           [("prefix", 16); ("s", 1024); ("batch_size", 4)]).
  - apply (bool_decide_unpack _). vm_compute. exact I.
  - apply (bool_decide_unpack _). vm_compute. exact I.
Defined.

(** ** Log formatting *)

Lemma startswith_app (sub post : ColoredFormatter.str) :
  ColoredFormatter.startswith sub (sub ++ post) = true.
Proof.
  induction sub as [|c sub IH]; [by destruct post|].
  cbn. by rewrite bool_decide_eq_true_2, IH.
Qed.

Lemma contains_app (pre sub post : ColoredFormatter.str) :
  ColoredFormatter.contains sub (pre ++ sub ++ post) = true.
Proof.
  induction pre as [|c pre IH].
  - cbn [app]. destruct (sub ++ post) eqn:E; cbn [ColoredFormatter.contains];
      rewrite <- E, startswith_app; reflexivity.
  - cbn [app ColoredFormatter.contains]. rewrite IH. apply orb_true_r.
Qed.

Lemma split_no_split (sep : N) (s : ColoredFormatter.str) :
  ColoredFormatter.split sep s 0 = [s].
Proof. by destruct s. Qed.

Lemma split_nonempty (sep : N) (s : ColoredFormatter.str) (maxsplit : nat) :
  ColoredFormatter.split sep s maxsplit ≠ [].
Proof.
  revert maxsplit. induction s as [|c s IH]; intros [|m]; cbn; try done.
  destruct (decide (c = sep)); [done|].
  destruct (ColoredFormatter.split sep s (S m)) eqn:E; done.
Qed.

Lemma split_first (sep : N) (part rest : ColoredFormatter.str) (maxsplit : nat) :
  sep ∉ part →
  ColoredFormatter.split sep (part ++ sep :: rest) (S maxsplit)
  = part :: ColoredFormatter.split sep rest maxsplit.
Proof.
  induction part as [|c part IH]; intros Hnot.
  - cbn. by rewrite decide_True.
  - apply not_elem_of_cons in Hnot as [Hne Hnot].
    cbn [app ColoredFormatter.split]. rewrite decide_False by done.
    by rewrite IH.
Qed.

Lemma find_first (c : N) (part rest : ColoredFormatter.str) :
  c ∉ part → ColoredFormatter.find c (part ++ c :: rest) = Some (length part).
Proof.
  induction part as [|x part IH]; intros Hnot.
  - cbn. by rewrite decide_True.
  - apply not_elem_of_cons in Hnot as [Hne Hnot].
    cbn [app ColoredFormatter.find]. rewrite decide_False by done.
    by rewrite IH.
Qed.

Lemma take_through (c : N) (part rest : ColoredFormatter.str) :
  take (length part + 1) (part ++ c :: rest) = part ++ [c].
Proof. induction part as [|x part IH]; [done|]. cbn. by rewrite IH. Qed.

Lemma drop_through (c : N) (part rest : ColoredFormatter.str) :
  drop (length part + 1) (part ++ c :: rest) = rest.
Proof. induction part as [|x part IH]; [done|]. cbn. by rewrite IH. Qed.

(** X22: [format] returns the message of the base formatter unchanged
    whenever colours are off (standard output is not a terminal, or
    [NO_COLOR] is set, to anything) or the message does not contain
    "[aiconfigurator]". *)
Theorem format_leaves_plain_messages :
  ∀ (isatty : bool) (no_color : option ColoredFormatter.str)
    (log_message : ColoredFormatter.str),
    isatty = false
    ∨ is_Some no_color
    ∨ ColoredFormatter.contains (ColoredFormatter.lit "[aiconfigurator]") log_message
      = false →
    ColoredFormatter.format (ColoredFormatter.init isatty no_color) log_message
    = log_message.
Proof.
  intros isatty no_color m [->|[[v ->]|Hc]]; unfold ColoredFormatter.format.
  - reflexivity.
  - unfold ColoredFormatter.init. by rewrite bool_decide_eq_false_2, andb_false_r.
  - rewrite Hc. by destruct (negb _).
Qed.

Lemma format_leaves_plain_messages_witness :
  ColoredFormatter.format (ColoredFormatter.init true (Some []))
    (ColoredFormatter.lit "17:56:43 [aiconfigurator] [I] [utils.py:664] Hello")
  = ColoredFormatter.lit "17:56:43 [aiconfigurator] [I] [utils.py:664] Hello".
Proof.
  apply format_leaves_plain_messages. right. left. by exists [].
Defined.

(** X23: with colours on, a record formatted by the pattern of
    [setup_logging], "<time> [aiconfigurator] <level> <file>] <message>"
    (no space in the time and the level, no closing bracket in the file
    part), comes out as the grey header "<time> [aiconfigurator] <file>]",
    the level in the colour of its second character (blue I, yellow W, red
    E, cyan D, else uncoloured), and the message without its leading
    whitespace: the file part moves before the level, and nothing else of
    the text changes. *)
Theorem format_colours_standard_layout :
  ∀ (time level file message : ColoredFormatter.str),
    ColoredFormatter.space ∉ time →
    ColoredFormatter.space ∉ level →
    ColoredFormatter.closing_bracket ∉ file →
    ColoredFormatter.format true
      (time ++ ColoredFormatter.lit " [aiconfigurator] " ++ level
            ++ [ColoredFormatter.space] ++ file
            ++ [ColoredFormatter.closing_bracket] ++ message)
    = ColoredFormatter.GREY ++ time ++ ColoredFormatter.lit " [aiconfigurator] "
        ++ file ++ [ColoredFormatter.closing_bracket] ++ ColoredFormatter.RESET
        ++ [ColoredFormatter.space]
        ++ ColoredFormatter._color_level
             (match level with
              | _ :: c :: _ => [c]
              | _ => [ColoredFormatter.space]
              end) level
        ++ [ColoredFormatter.space] ++ ColoredFormatter.lstrip message.
Proof.
  intros time level file message Ht Hl Hf.
  unfold ColoredFormatter.format. cbn [negb].
  set (tag := ColoredFormatter.lit "[aiconfigurator]").
  set (rest := file ++ [ColoredFormatter.closing_bracket] ++ message).
  change (ColoredFormatter.lit " [aiconfigurator] ")
    with ([ColoredFormatter.space] ++ tag ++ [ColoredFormatter.space]).
  assert (ColoredFormatter.contains tag
            (time ++ ([ColoredFormatter.space] ++ tag ++ [ColoredFormatter.space])
                  ++ level ++ [ColoredFormatter.space] ++ rest) = true) as ->.
  { rewrite <- !app_assoc, (app_assoc time). apply contains_app. }
  assert (ColoredFormatter.split ColoredFormatter.space
            (time ++ ([ColoredFormatter.space] ++ tag ++ [ColoredFormatter.space])
                  ++ level ++ [ColoredFormatter.space] ++ rest) 3
          = [time; tag; level; rest]) as ->.
  { rewrite <- !app_assoc. cbn [app].
    rewrite split_first by done.
    rewrite (split_first _ tag) by (apply (bool_decide_unpack _); vm_compute; exact I).
    rewrite split_first by done. by rewrite split_no_split. }
  subst rest. cbn [app].
  rewrite find_first, take_through, drop_through by done.
  do 4 (rewrite <- ?app_assoc; cbn [app]). reflexivity.
Qed.

(** The example of the class docstring. *)
Lemma format_colours_standard_layout_witness :
  ColoredFormatter.format true
    (ColoredFormatter.lit "17:56:43 [aiconfigurator] [I] [utils.py:664] Hello, world!")
  = ColoredFormatter.GREY
      ++ ColoredFormatter.lit "17:56:43 [aiconfigurator] [utils.py:664]"
      ++ ColoredFormatter.RESET ++ ColoredFormatter.lit " "
      ++ ColoredFormatter.BLUE ++ ColoredFormatter.lit "[I]" ++ ColoredFormatter.RESET
      ++ ColoredFormatter.lit " Hello, world!".
Proof.
  etransitivity;
    [exact (format_colours_standard_layout
              (ColoredFormatter.lit "17:56:43") (ColoredFormatter.lit "[I]")
              (ColoredFormatter.lit "[utils.py:664")
              (ColoredFormatter.lit " Hello, world!")
              ltac:(apply (bool_decide_unpack _); vm_compute; exact I)
              ltac:(apply (bool_decide_unpack _); vm_compute; exact I)
              ltac:(apply (bool_decide_unpack _); vm_compute; exact I))|].
  vm_compute. reflexivity.
Defined.
